(** * The NumPy step coordinator of [yuxin_numpy/mnist-convnet.py]

    A shallow embedding of [NumpyTrainer] (lines 131-185 of the script): the
    module global [step_count], the attributes set by [_setup_graph], the
    helpers [_get_values] and [_set_values], and [run_step], which performs a
    momentum update on a host-resident copy of the parameters and loads the
    result into the variables of every replica.

    Modelling conventions.
    - Tensor elements are an abstract numeric type [F] with the operations
      the script applies to them; no law is assumed of them unless a theorem
      says so.  A decimal literal is read through [of_literal].
    - A NumPy value is its shape and its row-major buffer.  Binary
      operations follow NumPy's broadcasting rule and raise [ValueError]
      when the shapes cannot be broadcast.  What the session returns for a
      tensor of rank 1 or more is an array, which [v -= ...] updates in
      place; what it returns for a 0-d tensor is a NumPy scalar, an
      immutable object, for which [v -= ...] only binds the local name [v]
      to a new scalar.
    - A TensorFlow variable is represented by the value it currently holds;
      [all_vars] is the [#GPU x #PARAM] matrix of these values, one row per
      replica, and [var.load] replaces one cell.
    - A gradient tensor is a symbolic handle of type [G]; what the session
      returns for it on a given step is part of that step's environment, as
      are the measured duration and whether the monitors accept a scalar.
      Calls of the session itself are taken to return.
    - A Python exception ends the step; the outcome keeps the state of the
      trainer at the moment it was raised. *)

From Stdlib Require Import ZArith QArith Qcanon.
From stdpp Require Import base list strings.

Set Default Proof Using "Type".

(** ** Numbers and arrays *)

Class Numeric (F : Type) : Type := {
  fzero : F;
  fadd : F -> F -> F;
  fsub : F -> F -> F;
  fmul : F -> F -> F;
  of_literal : Q -> F
}.

Inductive exn : Set :=
| IndexError
| ValueError
| TypeError
| MonitorError.

(** A NumPy value: its shape and its buffer in row-major order.  A value
    of shape [()] is a NumPy scalar, which is what the session returns for a
    0-d tensor; a value of any other shape is an [ndarray]. *)
Record ndarray (F : Type) : Type := NdArray {
  shape : list nat;
  data : list F
}.
Arguments NdArray {F} _ _.
Arguments shape {F} _.
Arguments data {F} _.

Module Np.
Section Arrays.
Context {F : Type} `{Numeric F}.

(** Number of elements of a shape. *)
Definition size (s : list nat) : nat := foldr Nat.mul 1 s.

(** Whether a value is a NumPy scalar, an immutable object, rather than an
    array that [-=] writes into. *)
Definition is_scalar (a : ndarray F) : bool := bool_decide (shape a = []).

(** [np.zeros_like(g)] *)
Definition zeros_like (g : ndarray F) : ndarray F :=
  NdArray (shape g) (replicate (size (shape g)) fzero).

(** [a * c] and [c * a] for a Python scalar [c] *)
Definition mul_scalar (a : ndarray F) (c : F) : ndarray F :=
  NdArray (shape a) ((fun x => fmul x c) <$> data a).
Definition scalar_mul (c : F) (a : ndarray F) : ndarray F :=
  NdArray (shape a) ((fun x => fmul c x) <$> data a).

(** Element-wise combination of two buffers into a new one. *)
Fixpoint zip_op (op : F -> F -> F) (a b : list F) : list F :=
  match a, b with
  | x :: a', y :: b' => op x y :: zip_op op a' b'
  | _, _ => []
  end.

(** Element-wise combination written into the first buffer, which keeps
    its size. *)
Fixpoint write_op (op : F -> F -> F) (d xs : list F) : list F :=
  match d, xs with
  | w :: d', z :: xs' => op w z :: write_op op d' xs'
  | _, _ => d
  end.

(** NumPy's broadcasting rule on shapes read from the last axis: two axes
    are compatible when they are equal or one of them is 1, and a missing
    axis counts as 1. *)
Fixpoint broadcast_rev (s1 s2 : list nat) : option (list nat) :=
  match s1, s2 with
  | [], _ => Some s2
  | _, [] => Some s1
  | n1 :: s1', n2 :: s2' =>
      match broadcast_rev s1' s2' with
      | None => None
      | Some s =>
          if decide (n1 = n2) then Some (n1 :: s)
          else if decide (n1 = 1) then Some (n2 :: s)
          else if decide (n2 = 1) then Some (n1 :: s)
          else None
      end
  end.

Definition broadcast_shapes (s1 s2 : list nat) : option (list nat) :=
  reverse <$> broadcast_rev (reverse s1) (reverse s2).

(** The first [k] blocks of [n] elements of a buffer. *)
Fixpoint blocks (k n : nat) (d : list F) : list (list F) :=
  match k with
  | O => []
  | S k' => take n d :: blocks k' n (drop n d)
  end.

(** The buffer of an array of shape [sa] seen at shape [s], both of one
    rank: an axis of length 1 is repeated. *)
Fixpoint stretch (sa s : list nat) (d : list F) : list F :=
  match sa, s with
  | na :: sa', n :: s' =>
      if decide (na = n) then concat (stretch sa' s' <$> blocks na (size sa') d)
      else concat (replicate n (stretch sa' s' d))
  | _, _ => d
  end.

(** The buffer of [a] broadcast to the shape [s]. *)
Definition broadcast_to (s : list nat) (a : ndarray F) : list F :=
  stretch (replicate (length s - length (shape a)) 1 ++ shape a) s (data a).

(** [a + b]: a new array of the broadcast shape; [ValueError] (here [None])
    when the shapes cannot be broadcast.  Operands of one shape need no
    stretching. *)
Definition add (a b : ndarray F) : option (ndarray F) :=
  if decide (shape a = shape b)
  then Some (NdArray (shape a) (zip_op fadd (data a) (data b)))
  else s ← broadcast_shapes (shape a) (shape b);
       Some (NdArray s (zip_op fadd (broadcast_to s a) (broadcast_to s b))).

(** [v -= x] for an array [v]: the result is written into [v], so [x] must
    broadcast to the shape of [v]. *)
Definition isub (v x : ndarray F) : option (ndarray F) :=
  if decide (shape x = shape v)
  then Some (NdArray (shape v) (write_op fsub (data v) (data x)))
  else match broadcast_shapes (shape v) (shape x) with
       | Some s =>
           if decide (s = shape v)
           then Some (NdArray (shape v) (write_op fsub (data v) (broadcast_to s x)))
           else None
       | None => None
       end.
End Arrays.
End Np.

(** ** The trainer *)

(** What the outside world contributes to one call of [run_step]. *)
Record step_env (F G : Type) : Type := StepEnv {
  eval_grad : G -> ndarray F;   (* value the session returns for a gradient tensor *)
  duration : Q;                 (* difference of the two [time.perf_counter()] readings *)
  sink_ok : bool                (* whether [monitors.put_scalar] returns normally *)
}.
Arguments StepEnv {F G} _ _ _.
Arguments eval_grad {F G} _ _.
Arguments duration {F G} _.
Arguments sink_ok {F G} _.

(** The attributes of a [NumpyTrainer], the module global [step_count] and
    the scalars received by the monitors. *)
Record trainer (F G : Type) : Type := Trainer {
  all_vars : list (list (ndarray F));          (* #GPU x #PARAM *)
  all_grads : list G;
  var_values : option (list (ndarray F));      (* [None] is Python's None *)
  acc_values : option (list (ndarray F));
  step_count : Z;
  monitors : list (string * Q)
}.
Arguments Trainer {F G} _ _ _ _ _ _.
Arguments all_vars {F G} _.
Arguments all_grads {F G} _.
Arguments var_values {F G} _.
Arguments acc_values {F G} _.
Arguments step_count {F G} _.
Arguments monitors {F G} _.

Inductive outcome (F G : Type) : Type :=
| Done (st : trainer F G)
| Raised (e : exn) (st : trainer F G).
Arguments Done {F G} _.
Arguments Raised {F G} _ _.

Definition andThen {F G} (o : outcome F G) (k : trainer F G -> outcome F G) : outcome F G :=
  match o with
  | Done st => k st
  | Raised e st => Raised e st
  end.

Notation "'run' st <- c ; k" := (andThen c (fun st => k))
  (at level 10, st name, c at level 100, k at level 200).

Section Coordinator.
Context {F G : Type} `{Numeric F}.
Implicit Types st self : trainer F G.
Implicit Types env : step_env F G.

Definition set_all_vars (x : list (list (ndarray F))) st : trainer F G :=
  Trainer x (all_grads st) (var_values st) (acc_values st) (step_count st) (monitors st).
Definition set_all_grads (x : list G) st : trainer F G :=
  Trainer (all_vars st) x (var_values st) (acc_values st) (step_count st) (monitors st).
Definition set_var_values (x : option (list (ndarray F))) st : trainer F G :=
  Trainer (all_vars st) (all_grads st) x (acc_values st) (step_count st) (monitors st).
Definition set_acc_values (x : option (list (ndarray F))) st : trainer F G :=
  Trainer (all_vars st) (all_grads st) (var_values st) x (step_count st) (monitors st).
Definition set_step_count (x : Z) st : trainer F G :=
  Trainer (all_vars st) (all_grads st) (var_values st) (acc_values st) x (monitors st).
Definition set_monitors (x : list (string * Q)) st : trainer F G :=
  Trainer (all_vars st) (all_grads st) (var_values st) (acc_values st) (step_count st) x.

(** [_setup_graph] (lines 137-145): [builder_grads] is
    [self._builder.grads], one list of (gradient, variable) pairs per
    replica.  The class attribute [var_values] is left as it is. *)
Definition setup_graph (builder_grads : list (list (G * ndarray F))) self : outcome F G :=
  let vars := (fun grads : list (G * ndarray F) => snd <$> grads) <$> builder_grads in
  let self := set_all_vars vars self in
  match builder_grads with
  | [] => Raised IndexError self
  | grads0 :: _ =>
      let self := set_all_grads (fst <$> grads0) self in
      Done (set_acc_values None self)
  end.

(** The state of a freshly imported module and a fresh trainer object:
    [step_count = 0] (line 131), [var_values = None] (line 135); the
    attributes that [_setup_graph] will assign are shown empty. *)
Definition fresh : trainer F G := Trainer [] [] None None 0%Z [].

(** [_get_values] (lines 147-148) *)
Definition get_values self : outcome F G :=
  match all_vars self with
  | [] => Raised IndexError self
  | vars0 :: _ => Done (set_var_values (Some vars0) self)
  end.

(** [var.load(val)]: the value must have the shape of the variable. *)
Definition load (var val : ndarray F) : option (ndarray F) :=
  if decide (shape val = shape var) then Some val else None.

(** Inner loop of [_set_values]: [for val, var in zip(values, vars)]. *)
Fixpoint load_zip (values vars : list (ndarray F)) : list (ndarray F) * option exn :=
  match values, vars with
  | val :: values', var :: vars' =>
      match load var val with
      | Some var' => let '(rest, e) := load_zip values' vars' in (var' :: rest, e)
      | None => (var :: vars', Some ValueError)
      end
  | _, _ => (vars, None)
  end.

(** Outer loop of [_set_values]: [for all_vars in self.all_vars]. *)
Fixpoint load_all (values : list (ndarray F)) (replicas : list (list (ndarray F)))
  : list (list (ndarray F)) * option exn :=
  match replicas with
  | [] => ([], None)
  | vars :: rest =>
      match load_zip values vars with
      | (vars', Some e) => (vars' :: rest, Some e)
      | (vars', None) => let '(rest', e) := load_all values rest in (vars' :: rest', e)
      end
  end.

(** [_set_values] (lines 150-153) *)
Definition set_values self : outcome F G :=
  match var_values self, all_vars self with
  | None, [] => Done self
  | None, _ :: _ => Raised TypeError self
  | Some values, replicas =>
      match load_all values replicas with
      | (replicas', None) => Done (set_all_vars replicas' self)
      | (replicas', Some e) => Raised e (set_all_vars replicas' self)
      end
  end.

(** [self.monitors.put_scalar(name, val)] *)
Definition put_scalar env (name : string) (val : Q) self : outcome F G :=
  if sink_ok env then Done (set_monitors (monitors self ++ [(name, val)]) self)
  else Raised MonitorError self.

(** [not self.acc_values]: None and the empty list are both falsy. *)
Definition acc_uninitialized (acc : option (list (ndarray F))) : bool :=
  match acc with
  | None | Some [] => true
  | Some (_ :: _) => false
  end.

(** Body of the loop at lines 173-177 for one index [i].  The accumulator
    is assigned by index.  The parameter is not: [v -= ...] writes into the
    object [v] when it is an array and, when it is a NumPy scalar, binds the
    local name to the difference and leaves the snapshot as it is. *)
Definition update_at (lr momentum : F) (grad_values : list (ndarray F)) (i : nat) self
  : outcome F G :=
  match var_values self with
  | None => Raised TypeError self
  | Some values =>
  match values !! i with
  | None => Raised IndexError self
  | Some v =>
  match grad_values !! i with
  | None => Raised IndexError self
  | Some g =>
  match acc_values self with
  | None => Raised TypeError self
  | Some accs =>
  match accs !! i with
  | None => Raised IndexError self
  | Some acc =>
  match Np.add (Np.mul_scalar acc momentum) g with
  | None => Raised ValueError self
  | Some acc' =>
      let self := set_acc_values (Some (<[i:=acc']> accs)) self in
      if Np.is_scalar v then Done self
      else match Np.isub v (Np.scalar_mul lr acc') with
           | None => Raised ValueError self
           | Some v' => Done (set_var_values (Some (<[i:=v']> values)) self)
           end
  end end end end end end.

(** [for i in range(n): body] starting at index [i]. *)
Fixpoint for_range (body : nat -> trainer F G -> outcome F G) (i n : nat) self : outcome F G :=
  match n with
  | O => Done self
  | S n' => run self <- body i self; for_range body (S i) n' self
  end.

(** [run_step] (lines 155-185) with its two local constants as
    parameters. *)
Definition run_step_with (lr momentum : F) env self : outcome F G :=
  let self := set_step_count (step_count self + 1) self in
  run self <- (match var_values self with
               | None => get_values self
               | Some _ => Done self
               end);
  let grad_values := eval_grad env <$> all_grads self in
  run self <- (if (step_count self mod 10 =? 0)%Z
               then put_scalar env "step_time" (duration env) self
               else Done self);
  let self := if acc_uninitialized (acc_values self)
              then set_acc_values (Some (Np.zeros_like <$> grad_values)) self
              else self in
  match var_values self with
  | None => Raised TypeError self
  | Some values =>
      run self <- for_range (update_at lr momentum grad_values) 0 (length values) self;
      set_values self
  end.

Definition lr : F := of_literal (1 # 100).
Definition momentum : F := of_literal (9 # 10).

Definition run_step env self : outcome F G := run_step_with lr momentum env self.

(** The training loop: [run_step] once per environment, until one raises. *)
Fixpoint run_steps (envs : list (step_env F G)) self : outcome F G :=
  match envs with
  | [] => Done self
  | env :: envs' => run self <- run_step env self; run_steps envs' self
  end.
End Coordinator.

(** ** Derived notions used in the statements *)

Section Notions.
Context {F G : Type} `{Numeric F}.
Implicit Types st : trainer F G.
Implicit Types env : step_env F G.

(** The trainer an outcome ends in, whether the step completed or not. *)
Definition final (o : outcome F G) : trainer F G :=
  match o with
  | Done st => st
  | Raised _ st => st
  end.

(** What [hooked_sess.run(self.all_grads)] returns on this step. *)
Definition grad_values env st : list (ndarray F) := eval_grad env <$> all_grads st.

(** The host snapshot the update starts from: the one already held, or
    the values of replica 0 pulled by [_get_values]. *)
Definition snapshot_before st : option (list (ndarray F)) :=
  match var_values st with
  | Some values => Some values
  | None => head (all_vars st)
  end.

(** The accumulator the update starts from (lines 169-170). *)
Definition acc_before env st : option (list (ndarray F)) :=
  if acc_uninitialized (acc_values st)
  then Some (Np.zeros_like <$> grad_values env st)
  else acc_values st.

(** The monitors after the sampling at lines 164-165, when it does not raise. *)
Definition log_after env st : option (list (string * Q)) :=
  if ((step_count st + 1) mod 10 =? 0)%Z
  then (if sink_ok env then Some (monitors st ++ [("step_time"%string, duration env)]) else None)
  else Some (monitors st).

(** The trainer as the loop at line 173 finds it. *)
Definition prepared env st (values : list (ndarray F)) (log : list (string * Q)) : trainer F G :=
  Trainer (all_vars st) (all_grads st) (Some values) (acc_before env st)
          (step_count st + 1) log.

(** The numeric part of the state: replica stores, snapshot, accumulator. *)
Definition numeric st : list (list (ndarray F)) * option (list (ndarray F)) * option (list (ndarray F)) :=
  (all_vars st, var_values st, acc_values st).

(** Parameter snapshots after each step of a run, up to the first step
    that raises. *)
Fixpoint trajectory (envs : list (step_env F G)) st : list (option (list (ndarray F))) :=
  match envs with
  | [] => []
  | env :: envs' =>
      match run_step env st with
      | Done st' => var_values st' :: trajectory envs' st'
      | Raised _ _ => []
      end
  end.

(** The spec's sampling rule: step counts 10, 20, 30, ... *)
Definition sampled (k : Z) : bool := (0 <? k)%Z && (k mod 10 =? 0)%Z.

(** The scalars the spec expects from steps [k+1], [k+2], ... *)
Fixpoint expected_log (k : Z) (envs : list (step_env F G)) : list (string * Q) :=
  match envs with
  | [] => []
  | env :: envs' =>
      (if sampled (k + 1) then [("step_time"%string, duration env)] else [])
        ++ expected_log (k + 1) envs'
  end.

(** What one iteration of the loop makes of one parameter: the new
    accumulator buffer and what the snapshot holds for the parameter
    afterwards, which for a NumPy scalar is what it held before. *)
Definition momentum_rule (lr momentum : F) (v acc g : ndarray F)
  : option (ndarray F * ndarray F) :=
  acc' ← Np.add (Np.mul_scalar acc momentum) g;
  v' ← (if Np.is_scalar v then Some v else Np.isub v (Np.scalar_mul lr acc'));
  Some (acc', v').

(** The relation of section 4.3 between the values of one parameter before
    and after a step, as the code establishes it: the NumPy statement of
    line 176 and, for operands of one shape, its reading element by
    element; for a parameter held as an array the statement of line 177
    likewise; a parameter held as a NumPy scalar keeps its value. *)
Definition rule_holds (lr0 m : F) (v g acc acc' v' : ndarray F) : Prop :=
  Np.add (Np.mul_scalar acc m) g = Some acc' /\
  (shape acc = shape g ->
   shape acc' = shape g /\
   forall j x y, data acc !! j = Some x -> data g !! j = Some y ->
                 data acc' !! j = Some (fadd (fmul x m) y)) /\
  (Np.is_scalar v = true -> v' = v) /\
  (Np.is_scalar v = false ->
   Np.isub v (Np.scalar_mul lr0 acc') = Some v' /\
   (shape acc' = shape v ->
    forall j w z, data v !! j = Some w -> data acc' !! j = Some z ->
                  data v' !! j = Some (fsub w (fmul lr0 z)))).


(** How an outcome ended and the numeric state it ended in. *)
Definition numeric_outcome (o : outcome F G)
  : option exn * (list (list (ndarray F)) * option (list (ndarray F)) * option (list (ndarray F))) :=
  (match o with Done _ => None | Raised e _ => Some e end, numeric (final o)).

(** A trainer of a model without parameters, before or after any number of
    steps. *)
Definition parameterless st : Prop :=
  all_grads st = [] /\ all_vars st <> [] /\ Forall (fun vars => vars = []) (all_vars st) /\
  (var_values st = None \/ var_values st = Some []) /\
  acc_uninitialized (acc_values st) = true.

(** Values of pairwise equal shapes and buffer sizes. *)
Definition same_shapes (xs ys : list (ndarray F)) : Prop :=
  Forall2 (fun x y => shape x = shape y /\ length (data x) = length (data y)) xs ys.

(** A list of values with the given shapes, one per parameter. *)
Definition has_shapes (sh : list (list nat)) (xs : list (ndarray F)) : Prop :=
  Forall2 (fun s x => shape x = s) sh xs.

(** A trainer in which everything has the shapes [sh] of the parameters:
    the variables of every replica, the gradient list by its length, the
    snapshot if there is one and the accumulator once it is in use. *)
Definition well_shaped (sh : list (list nat)) st : Prop :=
  all_vars st <> [] /\
  Forall (has_shapes sh) (all_vars st) /\
  length (all_grads st) = length sh /\
  (forall values, var_values st = Some values -> has_shapes sh values) /\
  (forall accs, acc_values st = Some accs -> acc_uninitialized (Some accs) = false ->
                has_shapes sh accs).

(** With momentum zero the buffer [acc] adds nothing to the gradient [g]:
    the two have one shape and one buffer size, and [x * 0 + y = y] for the
    elements [x] of [acc] and [y] of [g] that meet.  In floating point this
    holds of a finite [x] (the sign of a zero [y] apart) and fails for an
    infinite or not-a-number [x], for which [x * 0] is not a number. *)
Definition zero_momentum_exact (acc g : ndarray F) : Prop :=
  shape acc = shape g /\ length (data acc) = length (data g) /\
  forall j x y, data acc !! j = Some x -> data g !! j = Some y ->
                fadd (fmul x fzero) y = y.

(** Gradient list, accumulator and the variables of replica 0 have one
    length. *)
Definition lengths_agree st : Prop :=
  length (all_grads st) = length (default [] (head (all_vars st))) /\
  forall accs, acc_values st = Some accs -> acc_uninitialized (Some accs) = false ->
               length accs = length (all_grads st).

(** A value that holds zeros only. *)
Definition all_zero (a : ndarray F) : Prop := Forall (fun x => x = fzero) (data a).

(** What [zip] in [_set_values] makes of one replica when every load
    succeeds: the leading variables take the values, the others stay. *)
Definition zipped (values vars : list (ndarray F)) : list (ndarray F) :=
  take (length vars) values ++ drop (length values) vars.

(** How an outcome ended and what the host then holds: snapshot and
    accumulator. *)
Definition host_outcome (o : outcome F G)
  : option exn * (option (list (ndarray F)) * option (list (ndarray F))) :=
  (match o with Done _ => None | Raised e _ => Some e end,
   (var_values (final o), acc_values (final o))).
End Notions.

(** ** Concrete trainers

    Over exact rationals: two replicas, two parameters each, a weight of
    shape [(2,)] and a bias of shape [(1,)].  Gradient tensors are numbered
    [2 * replica + parameter]. *)

#[global] Instance Qc_numeric : Numeric Qc :=
  {| fzero := Q2Qc 0; fadd := Qcplus; fsub := Qcminus; fmul := Qcmult; of_literal := Q2Qc |}.

(** Rationals with the special values of floating-point arithmetic, without
    rounding: two infinities and a not-a-number that every operation hands
    on. *)
Inductive xnum : Set :=
| Fin (x : Q)
| Inf (negative : bool)
| NaN.

Definition xadd (a b : xnum) : xnum :=
  match a, b with
  | Fin x, Fin y => Fin (Qred (x + y))
  | Fin _, Inf s | Inf s, Fin _ => Inf s
  | Inf s, Inf t => if Bool.eqb s t then Inf s else NaN
  | _, _ => NaN
  end.

Definition xneg (a : xnum) : xnum :=
  match a with
  | Fin x => Fin (Qred (- x))
  | Inf s => Inf (negb s)
  | NaN => NaN
  end.

Definition xmul (a b : xnum) : xnum :=
  match a, b with
  | Fin x, Fin y => Fin (Qred (x * y))
  | Fin x, Inf s | Inf s, Fin x =>
      if Qeq_bool x 0 then NaN else Inf (xorb s (Qnum x <? 0)%Z)
  | Inf s, Inf t => Inf (xorb s t)
  | _, _ => NaN
  end.

#[global] Instance xnum_numeric : Numeric xnum :=
  {| fzero := Fin 0; fadd := xadd; fsub := fun a b => xadd a (xneg b); fmul := xmul;
     of_literal := fun x => Fin (Qred x) |}.

Module Ex.
Definition q (x : Q) : Qc := Q2Qc x.

(** A vector and a NumPy scalar. *)
Definition vec {F : Type} (l : list F) : ndarray F := NdArray [length l] l.
Definition scalar {F : Type} (x : F) : ndarray F := NdArray [] [x].

Definition builder_grads : list (list (nat * ndarray Qc)) :=
  [ [(0, vec [q 1; q 2]); (1, vec [q (1 # 2)])];
    [(2, vec [q 1; q 2]); (3, vec [q (1 # 2)])] ].

(** Replica 0 yields gradients that depend on [k]; replica 1 yields
    other values. *)
Definition env (k : Q) (ok : bool) : step_env Qc nat :=
  StepEnv (fun h => match h with
                    | 0 => vec [q k; q (2 * k)]
                    | 1 => vec [q 3]
                    | 2 => vec [q 7; q 7]
                    | _ => vec [q 9]
                    end)
          (k / 4) ok.


Definition st0 : trainer Qc nat := final (setup_graph builder_grads fresh).
Definition st1 : trainer Qc nat := final (run_step (env 2 true) st0).
Definition st2 : trainer Qc nat := final (run_step (env 1 true) st1).

(** [_setup_graph] called again on the trainer that has made two steps,
    and the step after it. *)
Definition st0_again : trainer Qc nat := final (setup_graph builder_grads st2).
Definition st1_again : trainer Qc nat := final (run_step (env 2 true) st0_again).

(** Nine steps, so that the next one is sampled. *)
Definition st9 : trainer Qc nat := final (run_steps (replicate 9 (env 1 true)) st0).

(** A second run of the same two steps: another process with other
    gradient tensor numbers, other timings and a step counter that is
    already at 7. *)
Definition other_env (k : Q) : step_env Qc nat :=
  StepEnv (fun h => match h with
                    | 5 => vec [q k; q (2 * k)]
                    | _ => vec [q 3]
                    end)
          (k / 3) true.
Definition other_st0 : trainer Qc nat :=
  Trainer (all_vars st0) [5; 6] None None 7 [("step_time"%string, 1 # 2)].
Definition other_st2 : trainer Qc nat :=
  final (run_steps [other_env 2; other_env 1] other_st0).

(** The tenth step when the sink fails, and when it does not. *)
Definition st10_failed : trainer Qc nat := final (run_step (env 1 false) st9).
Definition st10 : trainer Qc nat := final (run_step (env 1 true) st9).

(** Twenty-five steps with growing durations. *)
Definition envs25 : list (step_env Qc nat) :=
  (fun k : nat => env (inject_Z (Z.of_nat k)) true) <$> seq 1 25.
Definition st25 : trainer Qc nat := final (run_steps envs25 st0).

(** [_setup_graph] called again after the first step, on a graph with a
    third parameter and on a graph with the weight only: the snapshot of two
    entries pulled at the first step is kept (only [acc_values] is reset). *)
Definition builder_grads3 : list (list (nat * ndarray Qc)) :=
  [ [(0, vec [q 1; q 2]); (1, vec [q (1 # 2)]); (4, vec [q 5])];
    [(2, vec [q 1; q 2]); (3, vec [q (1 # 2)]); (5, vec [q 5])] ].
Definition values1 : list (ndarray Qc) := default [] (var_values st1).
Definition st_long : trainer Qc nat := final (setup_graph builder_grads3 st1).

(** A trainer of a model without trainable parameters, on three replicas. *)
Definition empty_st0 : trainer Qc nat := final (setup_graph [[]; []; []] fresh).

(** The broadcast alone, on the trainer whose replicas have a third
    variable the snapshot does not cover. *)
Definition st_long_set : trainer Qc nat := final (set_values st_long).

(** [_setup_graph] called again on a graph whose second replica holds the
    weight with shape [(1, 2)]: the same two elements, another shape, and its
    load of the weight of shape [(2,)] fails. *)
Definition builder_bad : list (list (nat * ndarray Qc)) :=
  [ [(0, vec [q 1; q 2]); (1, vec [q (1 # 2)])];
    [(2, NdArray [1; 2] [q 1; q 2]); (3, vec [q (1 # 2)])] ].
Definition st_bad : trainer Qc nat := final (setup_graph builder_bad st1).
Definition st_bad_set : trainer Qc nat := final (set_values st_bad).

(** The snapshot pulled, and nothing else done. *)
Definition st0_pulled : trainer Qc nat := final (get_values st0).

(** The accumulator after the first step. *)
Definition accs1 : list (ndarray Qc) := default [] (acc_values st1).


(** Steps with zero gradients on both replicas. *)
Definition zero_env : step_env Qc nat :=
  StepEnv (fun h => match h with
                    | 0 | 2 => vec [q 0; q 0]
                    | _ => vec [q 0]
                    end)
          (1 # 4) true.
Definition st_rest : trainer Qc nat := final (run_steps [zero_env; zero_env] st0).

(** The second step with momentum zero: the accumulator it finds is the
    one the first step left, which is not zero. *)
Definition st2_plain : trainer Qc nat := final (run_step_with lr fzero (env 1 true) st1).

(** One parameter [p = 1.0] held as an array of shape [(1,)], one replica,
    gradients [2.0] then [1.0]. *)
Definition single_env (g : Q) : step_env Qc nat := StepEnv (fun _ => vec [q g]) 0 true.
Definition single_st0 : trainer Qc nat := final (setup_graph [[(0, vec [q 1])]] fresh).

(** The example of the spec (section 8): one scalar parameter [p = 1.0],
    a 0-d variable, one replica, gradients [2.0] then [1.0]. *)
Definition point_env (g : Q) : step_env Qc nat := StepEnv (fun _ => scalar (q g)) 0 true.
Definition point_st0 : trainer Qc nat := final (setup_graph [[(0, scalar (q 1))]] fresh).
Definition point_st1 : trainer Qc nat := final (run_step (point_env 2) point_st0).
Definition point_st2 : trainer Qc nat := final (run_step (point_env 1) point_st1).

(** The first step of that example with momentum zero. *)
Definition point_plain : trainer Qc nat :=
  final (run_step_with lr fzero (point_env 2) point_st0).

(** Momentum zero in arithmetic with infinities: one parameter [1.0] of
    shape [(1,)], a first gradient that has overflowed to [+inf], then the
    gradient [1.0]. *)
Definition inf_env (g : xnum) : step_env xnum nat := StepEnv (fun _ => vec [g]) 0 true.
Definition inf_st0 : trainer xnum nat := final (setup_graph [[(0, vec [Fin 1])]] fresh).
Definition inf_st1 : trainer xnum nat :=
  final (run_step_with lr fzero (inf_env (Inf false)) inf_st0).
Definition inf_st2 : trainer xnum nat :=
  final (run_step_with lr fzero (inf_env (Fin 1)) inf_st1).

(** Two replicas of a model with a weight of shape [(2, 2)] and a bias of
    shape [(2,)]. *)
Definition builder_rank2 : list (list (nat * ndarray Qc)) :=
  [ [(0, NdArray [2; 2] [q 1; q 2; q 3; q 4]); (1, vec [q 0; q 0])];
    [(2, NdArray [2; 2] [q 1; q 2; q 3; q 4]); (3, vec [q 0; q 0])] ].
Definition env_rank2 (k : Q) : step_env Qc nat :=
  StepEnv (fun h => match h with
                    | 0 | 2 => NdArray [2; 2] [q k; q k; q (2 * k); q (2 * k)]
                    | _ => vec [q 1; q k]
                    end)
          (k / 4) true.
Definition st0_rank2 : trainer Qc nat := final (setup_graph builder_rank2 fresh).

(** The shape of a value and the fractions it holds. *)
Definition view (a : option (ndarray Qc)) : option (list nat * list Q) :=
  option_map (fun a => (shape a, map this (data a))) a.

(** The fractions held by a list of values. *)
Definition fractions (l : option (list (ndarray Qc))) : option (list (list Q)) :=
  option_map (map (fun a => map this (data a))) l.
End Ex.

(** ** Facts about arrays *)

Section ArrayFacts.
Context {F : Type} `{Numeric F}.

Lemma zip_op_lookup (op : F -> F -> F) (a b : list F) (j : nat) (x y : F) :
  a !! j = Some x -> b !! j = Some y -> Np.zip_op op a b !! j = Some (op x y).
Proof.
  revert b j. induction a as [|x0 a IH]; intros [|y0 b] [|j]; simpl; try done.
  - by intros [= ->] [= ->].
  - apply IH.
Qed.

Lemma zip_op_Forall (op : F -> F -> F) (P1 P2 Q : F -> Prop) (a b : list F) :
  (forall x y, P1 x -> P2 y -> Q (op x y)) ->
  Forall P1 a -> Forall P2 b -> Forall Q (Np.zip_op op a b).
Proof.
  intros Hop Ha. revert b. induction Ha as [|x a Hx Ha IH]; intros b Hb; [constructor|].
  destruct Hb as [|y b Hy Hb]; simpl; constructor; [by apply Hop|by apply IH].
Qed.

Lemma write_op_length (op : F -> F -> F) (d xs : list F) :
  length (Np.write_op op d xs) = length d.
Proof.
  revert xs. induction d as [|w d IH]; intros [|z xs]; simpl; try done. by rewrite IH.
Qed.

Lemma write_op_lookup (op : F -> F -> F) (d xs : list F) (j : nat) (w z : F) :
  d !! j = Some w -> xs !! j = Some z -> Np.write_op op d xs !! j = Some (op w z).
Proof.
  revert xs j. induction d as [|w0 d IH]; intros [|z0 xs] [|j]; simpl; try done.
  - by intros [= ->] [= ->].
  - apply IH.
Qed.

Lemma zeros_like_zero (g : ndarray F) : Forall (fun x => x = fzero) (data (Np.zeros_like g)).
Proof. unfold Np.zeros_like. simpl. by apply Forall_replicate. Qed.

Lemma mul_scalar_lookup (a : ndarray F) (c : F) (j : nat) (x : F) :
  data a !! j = Some x -> data (Np.mul_scalar a c) !! j = Some (fmul x c).
Proof. intros Hx. unfold Np.mul_scalar. simpl. by rewrite list_lookup_fmap, Hx. Qed.

Lemma scalar_mul_lookup (c : F) (a : ndarray F) (j : nat) (x : F) :
  data a !! j = Some x -> data (Np.scalar_mul c a) !! j = Some (fmul c x).
Proof. intros Hx. unfold Np.scalar_mul. simpl. by rewrite list_lookup_fmap, Hx. Qed.

Lemma isub_shape (v x v' : ndarray F) :
  Np.isub v x = Some v' -> shape v' = shape v /\ length (data v') = length (data v).
Proof.
  unfold Np.isub. case_decide as Hs.
  - intros [= <-]. simpl. by rewrite write_op_length.
  - destruct (Np.broadcast_shapes (shape v) (shape x)) as [s|]; [|done].
    case_decide; [|done]. intros [= <-]. simpl. by rewrite write_op_length.
Qed.

Lemma add_same_shape (a g : ndarray F) :
  shape a = shape g ->
  Np.add a g = Some (NdArray (shape g) (Np.zip_op fadd (data a) (data g))).
Proof. intros Hs. unfold Np.add. rewrite decide_True by done. by rewrite Hs. Qed.

Lemma isub_same_shape (v x : ndarray F) :
  shape x = shape v ->
  Np.isub v x = Some (NdArray (shape v) (Np.write_op fsub (data v) (data x))).
Proof. intros Hs. unfold Np.isub. by rewrite decide_True. Qed.

(** The stretching of the general case leaves an operand of the target
    shape as it is, so that the two cases of [Np.add] and [Np.isub] agree
    on operands of one shape. *)
Lemma broadcast_rev_same (s : list nat) : Np.broadcast_rev s s = Some s.
Proof.
  induction s as [|n s IH]; simpl; [done|]. rewrite IH. by rewrite decide_True.
Qed.

Lemma broadcast_shapes_same (s : list nat) : Np.broadcast_shapes s s = Some s.
Proof.
  unfold Np.broadcast_shapes. rewrite broadcast_rev_same. simpl. by rewrite reverse_involutive.
Qed.

Lemma blocks_concat (n : nat) : forall (k : nat) (d : list F),
  concat (Np.blocks k n d) = take (k * n) d.
Proof.
  induction k as [|k IH]; intros d; simpl; [done|].
  rewrite IH. by rewrite take_take_drop.
Qed.

Lemma blocks_length (n : nat) : forall (k : nat) (d : list F),
  k * n <= length d -> Forall (fun b => length b = n) (Np.blocks k n d).
Proof.
  induction k as [|k IH]; intros d Hl; simpl; [constructor|].
  constructor.
  - rewrite length_take. simpl in Hl. lia.
  - apply IH. rewrite length_drop. simpl in Hl. lia.
Qed.

Lemma stretch_same (s : list nat) : forall d : list F,
  length d = Np.size s -> Np.stretch s s d = d.
Proof.
  induction s as [|n s IH]; intros d Hl; simpl; [done|].
  rewrite decide_True by done. simpl in Hl.
  assert (Hid : Np.stretch s s <$> Np.blocks n (Np.size s) d = Np.blocks n (Np.size s) d).
  { assert (Hb : Forall (fun b => length b = Np.size s) (Np.blocks n (Np.size s) d))
      by (apply blocks_length; lia).
    induction Hb as [|b bs Hlb Hbs IHb]; [done|]. csimpl. f_equal; [by apply IH|done]. }
  rewrite Hid, blocks_concat. apply take_ge. lia.
Qed.

Lemma broadcast_to_same (a : ndarray F) :
  length (data a) = Np.size (shape a) -> Np.broadcast_to (shape a) a = data a.
Proof.
  intros Hl. unfold Np.broadcast_to. rewrite Nat.sub_diag. simpl. by apply stretch_same.
Qed.

Lemma add_by_broadcast (a b : ndarray F) :
  shape a = shape b ->
  length (data a) = Np.size (shape a) -> length (data b) = Np.size (shape b) ->
  Np.add a b
  = (s ← Np.broadcast_shapes (shape a) (shape b);
     Some (NdArray s (Np.zip_op fadd (Np.broadcast_to s a) (Np.broadcast_to s b)))).
Proof.
  intros Hs Ha Hb. rewrite add_same_shape by done. rewrite Hs, broadcast_shapes_same. simpl.
  rewrite (broadcast_to_same b) by done. rewrite <- Hs. by rewrite (broadcast_to_same a).
Qed.

Lemma isub_by_broadcast (v x : ndarray F) :
  shape x = shape v -> length (data x) = Np.size (shape x) ->
  Np.isub v x
  = match Np.broadcast_shapes (shape v) (shape x) with
    | Some s =>
        if decide (s = shape v)
        then Some (NdArray (shape v) (Np.write_op fsub (data v) (Np.broadcast_to s x)))
        else None
    | None => None
    end.
Proof.
  intros Hs Hx. rewrite isub_same_shape by done. rewrite Hs, broadcast_shapes_same.
  rewrite decide_True by done. rewrite <- Hs. by rewrite (broadcast_to_same x).
Qed.

(** Stretching repeats elements and invents none. *)
Lemma stretch_Forall (P : F -> Prop) (sa : list nat) : forall (s : list nat) (d : list F),
  Forall P d -> Forall P (Np.stretch sa s d).
Proof.
  induction sa as [|na sa IH]; intros s d Hd; simpl; [done|].
  destruct s as [|n s]; [done|]. case_decide.
  - apply Forall_concat, Forall_fmap.
    assert (Hb : forall (k m : nat) (d0 : list F), Forall P d0 ->
      Forall (Forall P ∘ Np.stretch sa s) (Np.blocks k m d0)).
    { induction k as [|k IHk]; intros m d0 Hd0; simpl; constructor.
      - simpl. apply IH. by apply Forall_take.
      - apply IHk. by apply Forall_drop. }
    by apply Hb.
  - apply Forall_concat, Forall_replicate. by apply IH.
Qed.

Lemma broadcast_to_Forall (P : F -> Prop) (s : list nat) (a : ndarray F) :
  Forall P (data a) -> Forall P (Np.broadcast_to s a).
Proof. apply stretch_Forall. Qed.
End ArrayFacts.

(** NumPy's answers on small operands: [(2,1) + (1,3)] and [(2,3) + (3,)]
    are stretched to [(2,3)]; [(2,3) + (2,)] and [(2,2) + (4,)] raise; and
    [v -= x] accepts an [x] of shape [(1,)] for a [v] of shape [(3,)] but not
    an [x] of shape [(2,3)], whose sum with [v] has another shape than
    [v]. *)
Example broadcasting_examples :
  Ex.view (Np.add (NdArray [2; 1] [Ex.q 10; Ex.q 20]) (NdArray [1; 3] [Ex.q 1; Ex.q 2; Ex.q 3]))
    = Some ([2; 3], [11; 12; 13; 21; 22; 23]%Q) /\
  Ex.view (Np.add (NdArray [2; 3] (Ex.q <$> [10; 20; 30; 40; 50; 60]%Q))
                  (Ex.vec (Ex.q <$> [1; 2; 3]%Q)))
    = Some ([2; 3], [11; 22; 33; 41; 52; 63]%Q) /\
  Np.add (NdArray [2; 3] (Ex.q <$> [10; 20; 30; 40; 50; 60]%Q)) (Ex.vec (Ex.q <$> [1; 2]%Q))
    = None /\
  Np.add (NdArray [2; 2] (Ex.q <$> [1; 2; 3; 4]%Q)) (Ex.vec (Ex.q <$> [1; 2; 3; 4]%Q)) = None /\
  Ex.view (Np.isub (Ex.vec (Ex.q <$> [10; 20; 30]%Q)) (Ex.vec [Ex.q 1]))
    = Some ([3], [9; 19; 29]%Q) /\
  Np.isub (Ex.vec (Ex.q <$> [10; 20; 30]%Q)) (NdArray [2; 3] (Ex.q <$> [1; 2; 3; 1; 2; 3]%Q))
    = None.
Proof. split_and!; vm_compute; reflexivity. Qed.

(** ** Facts about the update loop *)

Section LoopFacts.
Context {F G : Type} `{Numeric F}.
Implicit Types st : trainer F G.
Implicit Types env : step_env F G.
Implicit Types values accs gs : list (ndarray F).

Lemma update_at_Done lr0 m gs i st st' :
  update_at lr0 m gs i st = Done st' ->
  exists values accs v g acc acc' v',
    var_values st = Some values /\ acc_values st = Some accs /\
    values !! i = Some v /\ gs !! i = Some g /\ accs !! i = Some acc /\
    momentum_rule lr0 m v acc g = Some (acc', v') /\
    st' = set_var_values (Some (<[i:=v']> values))
            (set_acc_values (Some (<[i:=acc']> accs)) st).
Proof.
  unfold update_at. intros Hst.
  destruct (var_values st) as [values|] eqn:Hv; [|done].
  destruct (values !! i) as [v|] eqn:Hvi; [|done].
  destruct (gs !! i) as [g|] eqn:Hgi; [|done].
  destruct (acc_values st) as [accs|] eqn:Ha; [|done].
  destruct (accs !! i) as [acc|] eqn:Hai; [|done].
  destruct (Np.add _ g) as [acc'|] eqn:Hadd; [|done].
  destruct (Np.is_scalar v) eqn:Hsc.
  - injection Hst as <-.
    exists values, accs, v, g, acc, acc', v. split_and!; try done.
    + unfold momentum_rule. rewrite Hadd. simpl. by rewrite Hsc.
    + rewrite (list_insert_id values i v) by done. destruct st; simpl in *; by subst.
  - destruct (Np.isub v _) as [v'|] eqn:Hsub; [|done].
    injection Hst as <-.
    exists values, accs, v, g, acc, acc', v'. split_and!; try done.
    unfold momentum_rule. rewrite Hadd. simpl. by rewrite Hsc, Hsub.
Qed.

(** One iteration touches the snapshot and the accumulator only. *)
Lemma update_at_frame lr0 m gs i st :
  let st' := final (update_at lr0 m gs i st) in
  all_vars st' = all_vars st /\ all_grads st' = all_grads st /\
  step_count st' = step_count st /\ monitors st' = monitors st.
Proof.
  unfold update_at.
  repeat match goal with
         | |- context [match ?x with _ => _ end] => destruct x; simpl; try done
         end.
Qed.

Lemma for_range_frame lr0 m gs n : forall i st,
  let st' := final (for_range (update_at lr0 m gs) i n st) in
  all_vars st' = all_vars st /\ all_grads st' = all_grads st /\
  step_count st' = step_count st /\ monitors st' = monitors st.
Proof.
  induction n as [|n IH]; intros i st; simpl; [done|].
  pose proof (update_at_frame lr0 m gs i st) as Hf. simpl in Hf.
  destruct (update_at lr0 m gs i st) as [st1|e st1]; simpl in *; [|done].
  specialize (IH (S i) st1). simpl in IH.
  destruct Hf as (? & ? & ? & ?), IH as (? & ? & ? & ?). repeat split; congruence.
Qed.

(** What a completed loop has done: every index of the range has been
    updated by the rule, every other index is as before. *)
Lemma for_range_Done lr0 m gs n : forall i st st' values accs,
  for_range (update_at lr0 m gs) i n st = Done st' ->
  var_values st = Some values -> acc_values st = Some accs ->
  exists values' accs',
    st' = set_var_values (Some values') (set_acc_values (Some accs') st) /\
    length values' = length values /\ length accs' = length accs /\
    (forall j, i <= j < i + n ->
       exists v g acc acc' v',
         values !! j = Some v /\ gs !! j = Some g /\ accs !! j = Some acc /\
         momentum_rule lr0 m v acc g = Some (acc', v') /\
         accs' !! j = Some acc' /\ values' !! j = Some v') /\
    (forall j, ~ (i <= j < i + n) ->
       values' !! j = values !! j /\ accs' !! j = accs !! j).
Proof.
  induction n as [|n IH]; intros i st st' values accs Hrun Hv Ha; simpl in Hrun.
  - injection Hrun as <-. exists values, accs. split_and!; try done.
    + destruct st; simpl in *; by subst.
    + intros j Hj. lia.
  - destruct (update_at lr0 m gs i st) as [st1|e st1] eqn:Hbody; simpl in Hrun; [|done].
    apply update_at_Done in Hbody
      as (values0 & accs0 & v & g & acc & acc' & v' & Hv0 & Ha0 & Hvi & Hgi & Hai & Hrule & ->).
    rewrite Hv in Hv0. injection Hv0 as <-. rewrite Ha in Ha0. injection Ha0 as <-.
    eapply IH in Hrun as (values' & accs' & -> & Hlv & Hla & Hin & Hout); try done.
    exists values', accs'. rewrite !length_insert in *. split_and!; try done.
    + intros j Hj. destruct (decide (j = i)) as [->|Hne].
      * destruct (Hout i) as [Hvo Hao]; [lia|].
        exists v, g, acc, acc', v'. repeat split; try done.
        -- rewrite Hao. apply list_lookup_insert_eq. by eapply lookup_lt_Some.
        -- rewrite Hvo. apply list_lookup_insert_eq. by eapply lookup_lt_Some.
      * destruct (Hin j) as (v1 & g1 & acc1 & acc1' & v1' & H1 & H2 & H3 & H4 & H5 & H6); [lia|].
        rewrite list_lookup_insert_ne in H1 by done.
        rewrite list_lookup_insert_ne in H3 by done.
        by exists v1, g1, acc1, acc1', v1'.
    + intros j Hj. destruct (Hout j) as [Hvo Hao]; [lia|].
      rewrite Hvo, Hao. rewrite !list_lookup_insert_ne by lia. done.
Qed.
End LoopFacts.

(** ** Facts about the broadcast *)

Section BroadcastFacts.
Context {F G : Type} `{Numeric F}.
Implicit Types st : trainer F G.
Implicit Types values vars : list (ndarray F).
Implicit Types replicas : list (list (ndarray F)).

Lemma load_zip_full values : forall vars vars',
  load_zip values vars = (vars', None) -> length vars = length values -> vars' = values.
Proof.
  induction values as [|val values IH]; intros [|var vars] vars' Hz Hl; simpl in *;
    try done.
  - by injection Hz as <-.
  - unfold load in Hz. case_decide; [|done].
    destruct (load_zip values vars) as [rest e] eqn:Hrest.
    injection Hz as <- ->. f_equal. apply IH with vars; [done|lia].
Qed.

Lemma load_all_full values : forall replicas replicas',
  load_all values replicas = (replicas', None) ->
  Forall (fun vars => length vars = length values) replicas ->
  replicas' = replicate (length replicas) values.
Proof.
  induction replicas as [|vars replicas IH]; intros replicas' Hl Hall; simpl in *.
  - by injection Hl as <-.
  - apply Forall_cons in Hall as [Hlen Hall].
    destruct (load_zip values vars) as [vars' [e|]] eqn:Hz; [done|].
    destruct (load_all values replicas) as [rest e] eqn:Hrest.
    injection Hl as <- ->. f_equal.
    + by apply load_zip_full with vars.
    + by apply IH.
Qed.

Lemma load_all_nil replicas : load_all [] replicas = (replicas, None).
Proof.
  induction replicas as [|vars replicas IH]; simpl; [done|].
  by rewrite IH.
Qed.


Lemma set_values_Done st st' :
  set_values st = Done st' ->
  (var_values st = None /\ st' = st) \/
  exists values replicas',
    var_values st = Some values /\
    load_all values (all_vars st) = (replicas', None) /\
    st' = set_all_vars replicas' st.
Proof.
  unfold set_values. destruct (var_values st) as [values|] eqn:Hv.
  - destruct (load_all values (all_vars st)) as [replicas' [e|]] eqn:Hl; [done|].
    intros [= <-]. right. by exists values, replicas'.
  - destruct (all_vars st); [|done]. intros [= <-]. by left.
Qed.
End BroadcastFacts.

(** ** Facts about one step *)

Section StepFacts.
Context {F G : Type} `{Numeric F}.
Implicit Types st : trainer F G.
Implicit Types env : step_env F G.

(** [run_step] is: pull the snapshot if needed, sample the telemetry, then
    run the loop on the prepared trainer and broadcast. *)
Lemma run_step_with_unfold lr0 m env st :
  run_step_with lr0 m env st =
    match snapshot_before st with
    | None => Raised IndexError (set_step_count (step_count st + 1) st)
    | Some values =>
        match log_after env st with
        | None => Raised MonitorError
                    (set_var_values (Some values) (set_step_count (step_count st + 1) st))
        | Some log =>
            run st3 <- for_range (update_at lr0 m (grad_values env st)) 0 (length values)
                         (prepared env st values log);
            set_values st3
        end
    end.
Proof.
  destruct st as [replicas grads [values|] accs count log];
    unfold run_step_with, snapshot_before, log_after, prepared, acc_before, grad_values,
      get_values, put_scalar, set_step_count, set_var_values, set_acc_values, set_monitors;
    simpl.
  - destruct ((count + 1) mod 10 =? 0)%Z; simpl; [destruct (sink_ok env); simpl|];
      try done; by destruct (acc_uninitialized accs).
  - destruct replicas as [|vars0 replicas]; simpl; [done|].
    destruct ((count + 1) mod 10 =? 0)%Z; simpl; [destruct (sink_ok env); simpl|];
      try done; by destruct (acc_uninitialized accs).
Qed.

Lemma acc_before_is_Some env st : exists accs, acc_before env st = Some accs.
Proof.
  unfold acc_before. destruct (acc_values st) as [[|a accs]|]; simpl; eauto.
Qed.

(** The shape of a completed step. *)
Lemma run_step_with_Done lr0 m env st st' :
  run_step_with lr0 m env st = Done st' ->
  exists values accs values' accs' replicas' log,
    snapshot_before st = Some values /\ acc_before env st = Some accs /\
    log_after env st = Some log /\
    load_all values' (all_vars st) = (replicas', None) /\
    st' = Trainer replicas' (all_grads st) (Some values') (Some accs') (step_count st + 1) log /\
    length values' = length values /\ length accs' = length accs /\
    (forall j, j < length values ->
       exists v g acc acc' v',
         values !! j = Some v /\ grad_values env st !! j = Some g /\ accs !! j = Some acc /\
         momentum_rule lr0 m v acc g = Some (acc', v') /\
         accs' !! j = Some acc' /\ values' !! j = Some v') /\
    (forall j, length values <= j -> accs' !! j = accs !! j).
Proof.
  rewrite run_step_with_unfold.
  destruct (snapshot_before st) as [values|] eqn:Hsnap; [|done].
  destruct (log_after env st) as [log|] eqn:Hlog; [|done].
  destruct (acc_before_is_Some env st) as [accs Hacc].
  destruct (for_range _ 0 _ _) as [st3|e st3] eqn:Hloop; simpl; [|done].
  intros Hset.
  eapply for_range_Done in Hloop as (values' & accs' & -> & Hlv & Hla & Hin & Hout);
    [|done|simpl; exact Hacc].
  apply set_values_Done in Hset as [[Hnone _]|(values0 & replicas' & Hv0 & Hl & ->)];
    [done|].
  simpl in Hv0. injection Hv0 as <-. simpl in Hl.
  exists values, accs, values', accs', replicas', log. split_and!; try done.
  - intros j Hj. apply Hin. lia.
  - intros j Hj. apply Hout. lia.
Qed.
End StepFacts.
(** ** Steps that complete *)

Section Completion.
Context {F G : Type} `{Numeric F}.
Implicit Types st : trainer F G.
Implicit Types env : step_env F G.
Implicit Types values accs gs vars : list (ndarray F).

(** What the rule leaves in the snapshot has the shape and the buffer size
    of what it found there. *)
Lemma momentum_rule_shape lr0 m (v acc g acc' v' : ndarray F) :
  momentum_rule lr0 m v acc g = Some (acc', v') ->
  shape v' = shape v /\ length (data v') = length (data v).
Proof.
  unfold momentum_rule. intros Hr.
  destruct (Np.add _ g) as [a1|]; simpl in Hr; [|done].
  destruct (Np.is_scalar v).
  - simpl in Hr. by injection Hr as _ <-.
  - destruct (Np.isub v _) as [v1|] eqn:Hsub; simpl in Hr; [|done].
    injection Hr as _ <-. by apply isub_shape in Hsub.
Qed.

(** The loop completes when every parameter of its range finds a gradient
    and an accumulator buffer of its own shape. *)
Lemma for_range_completes lr0 m gs n : forall i st values accs,
  var_values st = Some values -> acc_values st = Some accs ->
  (forall j, i <= j < i + n ->
     exists v g acc, values !! j = Some v /\ gs !! j = Some g /\ accs !! j = Some acc /\
                     shape g = shape v /\ shape acc = shape v) ->
  exists st', for_range (update_at lr0 m gs) i n st = Done st'.
Proof.
  induction n as [|n IH]; intros i st values accs Hv Ha Hshape; simpl; [by eexists|].
  destruct (Hshape i) as (v & g & acc & Hvi & Hgi & Hai & Hlg & Hla); [lia|].
  assert (Hadd : Np.add (Np.mul_scalar acc m) g
                 = Some (NdArray (shape g) (Np.zip_op fadd (data (Np.mul_scalar acc m)) (data g))))
    by (apply add_same_shape; simpl; congruence).
  unfold update_at at 1. rewrite Hv, Hvi, Hgi, Ha, Hai, Hadd. simpl.
  destruct (Np.is_scalar v).
  - simpl. eapply IH; [done..|].
    intros j Hj. destruct (Hshape j) as (v1 & g1 & acc1 & ? & ? & ? & ? & ?); [lia|].
    exists v1, g1, acc1. rewrite !list_lookup_insert_ne by lia. done.
  - rewrite isub_same_shape by (simpl; congruence). simpl.
    eapply IH; [done..|].
    intros j Hj. destruct (Hshape j) as (v1 & g1 & acc1 & ? & ? & ? & ? & ?); [lia|].
    exists v1, g1, acc1. rewrite !list_lookup_insert_ne by lia. done.
Qed.

Lemma load_zip_completes values : forall vars,
  (forall j val var, values !! j = Some val -> vars !! j = Some var -> shape val = shape var) ->
  exists vars', load_zip values vars = (vars', None).
Proof.
  induction values as [|val values IH]; intros [|var vars] Hshape; simpl; try by eexists.
  unfold load. rewrite decide_True by (by apply (Hshape 0)).
  destruct (IH vars) as [vars' ->]; [|by eexists].
  intros j. apply (Hshape (S j)).
Qed.

Lemma load_all_completes values : forall replicas,
  Forall (fun vars => forall j val var, values !! j = Some val -> vars !! j = Some var ->
                                        shape val = shape var) replicas ->
  exists replicas', load_all values replicas = (replicas', None).
Proof.
  induction replicas as [|vars replicas IH]; intros Hall; simpl; [by eexists|].
  apply Forall_cons in Hall as [Hvars Hall].
  destruct (load_zip_completes values vars Hvars) as [vars' ->].
  destruct (IH Hall) as [replicas' ->]. by eexists.
Qed.

(** A step completes when the sampling does not raise, every parameter of
    the snapshot finds a gradient and an accumulator buffer of its shape, and
    the variables of every replica have the shapes of the snapshot. *)
Lemma run_step_completes lr0 m env st values accs :
  snapshot_before st = Some values ->
  acc_before env st = Some accs ->
  is_Some (log_after env st) ->
  (forall j v, values !! j = Some v ->
     exists g acc, grad_values env st !! j = Some g /\ accs !! j = Some acc /\
                   shape g = shape v /\ shape acc = shape v) ->
  Forall (fun vars => forall j v var, values !! j = Some v -> vars !! j = Some var ->
                                      shape v = shape var) (all_vars st) ->
  exists st', run_step_with lr0 m env st = Done st'.
Proof.
  intros Hsnap Hacc [log Hlog] Hshape Hrows.
  rewrite run_step_with_unfold, Hsnap, Hlog.
  destruct (for_range_completes lr0 m (grad_values env st) (length values) 0
              (prepared env st values log) values accs) as [st3 Hloop]; [done|done| |].
  { intros j Hj. destruct (lookup_lt_is_Some_2 values j) as [v Hv]; [lia|].
    destruct (Hshape j v Hv) as (g & acc & ? & ? & ? & ?). by exists v, g, acc. }
  rewrite Hloop. simpl.
  eapply for_range_Done in Hloop as (values' & accs' & -> & Hlv & Hla & Hin & Hout);
    [|done|done].
  unfold set_values. simpl.
  destruct (load_all_completes values' (all_vars st)) as [replicas' ->]; [|by eexists].
  eapply Forall_impl; [exact Hrows|]. simpl. intros vars Hvars j v' var Hv' Hvar.
  destruct (Hin j) as (v & g & acc & acc1 & v1 & Hv & _ & _ & Hrule & _ & Hv1).
  { apply lookup_lt_Some in Hv'. lia. }
  rewrite Hv' in Hv1. injection Hv1 as <-.
  apply momentum_rule_shape in Hrule as [Hs _]. rewrite Hs. by eapply Hvars.
Qed.
End Completion.

(** ** The update rule *)

Section UpdateRule.
Context {F G : Type} `{Numeric F}.
Implicit Types st : trainer F G.
Implicit Types env : step_env F G.

Lemma add_elementwise (a g a' : ndarray F) :
  Np.add a g = Some a' -> shape a = shape g ->
  shape a' = shape g /\
  forall j x y, data a !! j = Some x -> data g !! j = Some y ->
                data a' !! j = Some (fadd x y).
Proof.
  intros Ha Hs. rewrite add_same_shape in Ha by done. injection Ha as <-.
  split; [done|]. intros j x y. apply zip_op_lookup.
Qed.

Lemma isub_elementwise (v x v' : ndarray F) :
  Np.isub v x = Some v' -> shape x = shape v ->
  forall j w z, data v !! j = Some w -> data x !! j = Some z ->
                data v' !! j = Some (fsub w z).
Proof.
  intros Hv Hs. rewrite isub_same_shape in Hv by done. injection Hv as <-.
  intros j w z. apply write_op_lookup.
Qed.

Lemma momentum_rule_holds lr0 m (v g acc acc' v' : ndarray F) :
  momentum_rule lr0 m v acc g = Some (acc', v') -> rule_holds lr0 m v g acc acc' v'.
Proof.
  unfold momentum_rule, rule_holds. intros Hr.
  destruct (Np.add _ g) as [a1|] eqn:Hadd; simpl in Hr; [|done].
  destruct (Np.is_scalar v) eqn:Hsc.
  - simpl in Hr. injection Hr as -> ->. split_and!; try done.
    intros Hs. destruct (add_elementwise _ _ _ Hadd Hs) as [Hs' Hel]. split; [done|].
    intros j x y Hx Hy. apply Hel; [by apply mul_scalar_lookup|done].
  - destruct (Np.isub v _) as [v1|] eqn:Hsub; simpl in Hr; [|done].
    injection Hr as -> ->. split_and!; try done.
    + intros Hs. destruct (add_elementwise _ _ _ Hadd Hs) as [Hs' Hel]. split; [done|].
      intros j x y Hx Hy. apply Hel; [by apply mul_scalar_lookup|done].
    + intros _. split; [done|]. intros Hs j w z Hw Hz.
      eapply isub_elementwise; [exact Hsub|done|done|by apply scalar_mul_lookup].
Qed.

(** What a completed step has done to the host: every parameter [i] of the
    snapshot has gone through [acc[i] = acc[i] * 0.9 + grad[i]] and, unless
    it is held as a NumPy scalar, through
    [param[i] = param[i] - 0.01 * acc[i]]; the snapshot so obtained is what
    the step has loaded into the replicas. *)
Lemma run_step_rule env st st' :
  run_step env st = Done st' ->
  exists values accs values' accs',
    snapshot_before st = Some values /\ acc_before env st = Some accs /\
    var_values st' = Some values' /\ acc_values st' = Some accs' /\
    load_all values' (all_vars st) = (all_vars st', None) /\
    forall i, i < length values ->
      exists v g acc acc' v',
        values !! i = Some v /\ grad_values env st !! i = Some g /\
        accs !! i = Some acc /\ accs' !! i = Some acc' /\ values' !! i = Some v' /\
        rule_holds (of_literal (1 # 100)) (of_literal (9 # 10)) v g acc acc' v'.
Proof.
  intros Hrun. apply run_step_with_Done in Hrun
    as (values & accs & values' & accs' & replicas' & log & Hsnap & Hacc & Hlog & Hload
        & -> & Hlv & Hla & Hin & Hout).
  exists values, accs, values', accs'. split_and!; try done.
  intros i Hi. destruct (Hin i Hi) as (v & g & acc & acc' & v' & ? & ? & ? & Hr & ? & ?).
  exists v, g, acc, acc', v'. split_and!; try done.
  by apply momentum_rule_holds.
Qed.
End UpdateRule.

(** On the spec's example with [p] held as an array of shape [(1,)], the
    rule gives [0.98] after a gradient of [2.0] and [0.952] after a further
    gradient of [1.0]. *)
Example spec_example_array :
  Ex.fractions (var_values (final (run_step (Ex.single_env 2) Ex.single_st0)))
    = Some [[49 # 50]]%Q /\
  Ex.fractions
    (var_values (final (run_steps [Ex.single_env 2; Ex.single_env 1] Ex.single_st0)))
    = Some [[119 # 125]]%Q.
Proof. split; vm_compute; reflexivity. Qed.

(** C1.  The example of the spec, section 8, with [p = 1.0] a 0-d
    variable: both steps complete and the accumulator follows the rule
    ([2.0], then [2.0 * 0.9 + 1.0 = 2.8]), but the snapshot and the replica
    hold [1.0] after the first step and after the second, where the rule
    gives [1.0 - 0.01 * 2.0 = 0.98] and then [0.98 - 0.01 * 2.8 = 0.952]. *)
Theorem zero_d_parameter_not_updated :
  setup_graph [[(0, Ex.scalar (Ex.q 1))]] fresh = Done Ex.point_st0 /\
  run_step (Ex.point_env 2) Ex.point_st0 = Done Ex.point_st1 /\
  run_step (Ex.point_env 1) Ex.point_st1 = Done Ex.point_st2 /\
  Ex.fractions (acc_values Ex.point_st1) = Some [[2]]%Q /\
  Ex.fractions (acc_values Ex.point_st2) = Some [[14 # 5]]%Q /\
  Ex.fractions (var_values Ex.point_st1) = Some [[1]]%Q /\
  Ex.fractions (var_values Ex.point_st2) = Some [[1]]%Q /\
  all_vars Ex.point_st1 = [[Ex.scalar (Ex.q 1)]] /\
  all_vars Ex.point_st2 = [[Ex.scalar (Ex.q 1)]] /\
  this (fsub (Ex.q 1) (fmul lr (Ex.q 2))) = (49 # 50)%Q /\
  this (fsub (Ex.q (49 # 50)) (fmul lr (Ex.q (14 # 5)))) = (119 # 125)%Q.
Proof. split_and!; vm_compute; reflexivity. Qed.

(** ** The first step (C5) *)

Section FirstStep.
Context {F G : Type} `{Numeric F}.
Implicit Types st self : trainer F G.
Implicit Types env : step_env F G.

Lemma setup_graph_Done bg self st :
  setup_graph bg self = Done st ->
  exists grads0 rest,
    bg = grads0 :: rest /\
    st = Trainer ((fun grads : list (G * ndarray F) => snd <$> grads) <$> bg) (fst <$> grads0)
                 (var_values self) None (step_count self) (monitors self).
Proof.
  unfold setup_graph. destruct bg as [|grads0 rest]; [done|].
  intros [= <-]. by exists grads0, rest.
Qed.

(** The accumulator a step without accumulator starts from. *)
Lemma acc_before_None env st :
  acc_values st = None -> acc_before env st = Some (Np.zeros_like <$> grad_values env st).
Proof. intros Hnone. unfold acc_before. by rewrite Hnone. Qed.
End FirstStep.

(** C5.  [_setup_graph] leaves the accumulator absent whatever it was
    before.  The first step completed after it leaves one buffer per
    received gradient [g]: for a parameter of the snapshot the buffer is
    [zeros_like(g) * 0.9 + g], the update of an all-zero buffer of the
    gradient's shape, and for a gradient past the snapshot it is
    [zeros_like(g)] itself. *)
Theorem first_step_zero_accumulator {F G : Type} `{Numeric F}
    (bg : list (list (G * ndarray F))) (self st st' : trainer F G) (env : step_env F G) :
  setup_graph bg self = Done st ->
  run_step env st = Done st' ->
  acc_values st = None /\
  exists values accs',
    snapshot_before st = Some values /\
    acc_values st' = Some accs' /\
    length accs' = length (grad_values env st) /\
    forall i g, grad_values env st !! i = Some g ->
      shape (Np.zeros_like g) = shape g /\
      data (Np.zeros_like g) = replicate (Np.size (shape g)) fzero /\
      (i < length values ->
       exists acc', Np.add (Np.mul_scalar (Np.zeros_like g) (of_literal (9 # 10))) g = Some acc' /\
                    accs' !! i = Some acc') /\
      (length values <= i -> accs' !! i = Some (Np.zeros_like g)).
Proof.
  intros Hsetup Hrun.
  assert (Hnone : acc_values st = None).
  { by apply setup_graph_Done in Hsetup as (grads0 & rest & _ & ->). }
  split; [done|].
  apply run_step_with_Done in Hrun
    as (values & accs & values' & accs' & replicas' & log & Hsnap & Hacc & Hlog & Hload
        & -> & Hlv & Hla & Hin & Hout).
  rewrite (acc_before_None env st Hnone) in Hacc. injection Hacc as <-.
  exists values, accs'. split_and!; try done.
  - by rewrite Hla, length_fmap.
  - intros i g Hg. split_and!; try done.
    + intros Hi. destruct (Hin i Hi) as (v & g0 & acc & acc' & v' & _ & Hg0 & Hacc & Hr & Ha' & _).
      rewrite Hg in Hg0. injection Hg0 as <-.
      rewrite list_lookup_fmap, Hg in Hacc. injection Hacc as <-.
      exists acc'. split; [|done]. by apply momentum_rule_holds in Hr as [Hadd _].
    + intros Hi. rewrite (Hout i Hi). by rewrite list_lookup_fmap, Hg.
Qed.

Lemma first_step_zero_accumulator_witness :
  setup_graph Ex.builder_grads fresh = Done Ex.st0 /\
  run_step (Ex.env 2 true) Ex.st0 = Done Ex.st1 /\
  acc_values Ex.st0 = None /\
  exists values accs',
    snapshot_before Ex.st0 = Some values /\
    acc_values Ex.st1 = Some accs' /\
    length accs' = length (grad_values (Ex.env 2 true) Ex.st0) /\
    forall i g, grad_values (Ex.env 2 true) Ex.st0 !! i = Some g ->
      shape (Np.zeros_like g) = shape g /\
      data (Np.zeros_like g) = replicate (Np.size (shape g)) fzero /\
      (i < length values ->
       exists acc', Np.add (Np.mul_scalar (Np.zeros_like g) (of_literal (9 # 10))) g = Some acc' /\
                    accs' !! i = Some acc') /\
      (length values <= i -> accs' !! i = Some (Np.zeros_like g)).
Proof.
  split; [vm_compute; reflexivity|]. split; [vm_compute; reflexivity|].
  apply (first_step_zero_accumulator Ex.builder_grads fresh Ex.st0 Ex.st1
           (Ex.env 2 true)).
  - vm_compute; reflexivity.
  - vm_compute; reflexivity.
Defined.

(** The first step of the example leaves [0 * 0.9 + g = g] in the
    accumulator: [2] and [4] for the weight, [3] for the bias.  So does the
    step after a second [_setup_graph], although two steps had filled the
    accumulator before. *)
Example first_step_values :
  Ex.fractions (acc_values Ex.st1) = Some [[2; 4]; [3]]%Q /\
  Ex.fractions (acc_values Ex.st2) = Some [[14 # 5; 28 # 5]; [57 # 10]]%Q /\
  acc_values Ex.st0_again = None /\
  Ex.fractions (acc_values Ex.st1_again) = Some [[2; 4]; [3]]%Q.
Proof. split_and!; vm_compute; reflexivity. Qed.

(** ** Momentum zero (C7) *)

Section PlainGradientDescent.
Context {F G : Type} `{Numeric F}.
Implicit Types st : trainer F G.
Implicit Types env : step_env F G.

Lemma zip_add_zero (da dg : list F) :
  length da = length dg ->
  (forall j x y, da !! j = Some x -> dg !! j = Some y -> fadd (fmul x fzero) y = y) ->
  Np.zip_op fadd ((fun x => fmul x fzero) <$> da) dg = dg.
Proof.
  revert dg. induction da as [|x da IH]; intros [|y dg] Hl Hlaw; csimpl in *; try done.
  f_equal.
  - by apply (Hlaw 0).
  - apply IH; [lia|]. intros j. apply (Hlaw (S j)).
Qed.

(** With momentum zero an accumulator that adds nothing becomes the
    gradient. *)
Lemma add_zero_momentum (acc g : ndarray F) :
  zero_momentum_exact acc g -> Np.add (Np.mul_scalar acc fzero) g = Some g.
Proof.
  intros (Hs & Hl & Hlaw). rewrite add_same_shape by done.
  unfold Np.mul_scalar. simpl. rewrite zip_add_zero by done. by destruct g.
Qed.

Lemma run_step_zero_momentum (lr0 : F) env st st' accs :
  acc_before env st = Some accs ->
  (forall i acc g, accs !! i = Some acc -> grad_values env st !! i = Some g ->
                   zero_momentum_exact acc g) ->
  run_step_with lr0 fzero env st = Done st' ->
  exists values values',
    snapshot_before st = Some values /\ var_values st' = Some values' /\
    forall i, i < length values ->
      exists v g v',
        values !! i = Some v /\ grad_values env st !! i = Some g /\ values' !! i = Some v' /\
        (Np.is_scalar v = false ->
         Np.isub v (Np.scalar_mul lr0 g) = Some v' /\
         (shape g = shape v ->
          forall j w y, data v !! j = Some w -> data g !! j = Some y ->
                        data v' !! j = Some (fsub w (fmul lr0 y)))).
Proof.
  intros Hacc0 Hexact Hrun. apply run_step_with_Done in Hrun
    as (values & accs0 & values' & accs' & replicas' & log & Hsnap & Hacc & Hlog & Hload
        & -> & Hlv & Hla & Hin & Hout).
  rewrite Hacc0 in Hacc. injection Hacc as <-.
  exists values, values'. split_and!; try done.
  intros i Hi. destruct (Hin i Hi) as (v & g & acc & acc' & v' & Hv & Hg & Ha & Hr & _ & Hv').
  exists v, g, v'. split_and!; try done. intros Hsc.
  apply momentum_rule_holds in Hr as (Hadd & _ & _ & Hsub).
  rewrite (add_zero_momentum acc g) in Hadd by (by eapply Hexact).
  injection Hadd as <-. by apply Hsub.
Qed.
End PlainGradientDescent.

(** Against C7 as stated.  In arithmetic with infinities, with momentum
    zero: after a step whose gradient was [+inf] the parameter is [-inf] and
    the accumulator [+inf]; the next step, with gradient [1.0], makes the
    accumulator [inf * 0 + 1.0], which is not a number, and so the parameter,
    where [param - 0.01 * grad] is [-inf].  And a parameter held as a NumPy
    scalar keeps its value [1.0] under a gradient of [2.0], where
    [param - 0.01 * grad] is [0.98]. *)
Lemma zero_momentum_counterexample :
  (run_step_with lr fzero (Ex.inf_env (Inf false)) Ex.inf_st0 = Done Ex.inf_st1 /\
   run_step_with lr fzero (Ex.inf_env (Fin 1)) Ex.inf_st1 = Done Ex.inf_st2 /\
   var_values Ex.inf_st1 = Some [Ex.vec [Inf true]] /\
   acc_values Ex.inf_st1 = Some [Ex.vec [Inf false]] /\
   var_values Ex.inf_st2 = Some [Ex.vec [NaN]] /\
   Np.isub (Ex.vec [Inf true]) (Np.scalar_mul lr (Ex.vec [Fin 1])) = Some (Ex.vec [Inf true])) /\
  (run_step_with lr fzero (Ex.point_env 2) Ex.point_st0 = Done Ex.point_plain /\
   Ex.fractions (snapshot_before Ex.point_st0) = Some [[1]]%Q /\
   Ex.fractions (var_values Ex.point_plain) = Some [[1]]%Q /\
   this (fsub (Ex.q 1) (fmul lr (Ex.q 2))) = (49 # 50)%Q).
Proof. split; split_and!; vm_compute; reflexivity. Qed.

(** C7, amended.  Running the step with momentum zero (and the script's
    learning rate) on an accumulator that adds nothing to the gradients
    ([zero_momentum_exact]) is plain gradient descent for every parameter
    held as an array: it becomes [param[i] - 0.01 * grad[i]]. *)
Theorem zero_momentum_is_gradient_descent {F G : Type} `{Numeric F}
    (env : step_env F G) (st st' : trainer F G) (accs : list (ndarray F)) :
  acc_before env st = Some accs ->
  (forall i acc g, accs !! i = Some acc -> grad_values env st !! i = Some g ->
                   zero_momentum_exact acc g) ->
  run_step_with lr fzero env st = Done st' ->
  exists values values',
    snapshot_before st = Some values /\ var_values st' = Some values' /\
    forall i, i < length values ->
      exists v g v',
        values !! i = Some v /\ grad_values env st !! i = Some g /\ values' !! i = Some v' /\
        (Np.is_scalar v = false ->
         Np.isub v (Np.scalar_mul (of_literal (1 # 100)) g) = Some v' /\
         (shape g = shape v ->
          forall j w y, data v !! j = Some w -> data g !! j = Some y ->
                        data v' !! j = Some (fsub w (fmul (of_literal (1 # 100)) y)))).
Proof.
  intros Hacc Hexact Hrun. by apply (run_step_zero_momentum lr env st st' accs Hacc Hexact) in Hrun.
Qed.

Lemma zero_momentum_is_gradient_descent_witness :
  acc_before (Ex.env 1 true) Ex.st1 = Some Ex.accs1 /\
  (forall i acc g, Ex.accs1 !! i = Some acc -> grad_values (Ex.env 1 true) Ex.st1 !! i = Some g ->
                   zero_momentum_exact acc g) /\
  run_step_with lr fzero (Ex.env 1 true) Ex.st1 = Done Ex.st2_plain /\
  exists values values',
    snapshot_before Ex.st1 = Some values /\ var_values Ex.st2_plain = Some values' /\
    forall i, i < length values ->
      exists v g v',
        values !! i = Some v /\ grad_values (Ex.env 1 true) Ex.st1 !! i = Some g /\
        values' !! i = Some v' /\
        (Np.is_scalar v = false ->
         Np.isub v (Np.scalar_mul (of_literal (1 # 100)) g) = Some v' /\
         (shape g = shape v ->
          forall j w y, data v !! j = Some w -> data g !! j = Some y ->
                        data v' !! j = Some (fsub w (fmul (of_literal (1 # 100)) y)))).
Proof.
  assert (Hexact : forall i acc g, Ex.accs1 !! i = Some acc ->
                     grad_values (Ex.env 1 true) Ex.st1 !! i = Some g ->
                     zero_momentum_exact acc g).
  { intros [|[|i]] acc g Ha Hg; [| |done]; injection Ha as <-; injection Hg as <-;
      (split; [reflexivity|]); (split; [reflexivity|]); intros j x y _ _;
      change (Qcplus (Qcmult x (Q2Qc 0)) y = y);
      rewrite Qcmult_0_r; apply Qcplus_0_l. }
  split; [vm_compute; reflexivity|]. split; [exact Hexact|].
  split; [vm_compute; reflexivity|].
  apply (zero_momentum_is_gradient_descent (Ex.env 1 true) Ex.st1 Ex.st2_plain Ex.accs1).
  - vm_compute; reflexivity.
  - exact Hexact.
  - vm_compute; reflexivity.
Defined.

(** The second step of the example with momentum zero subtracts
    [0.01 * gradient] from [0.98], [1.96] and [0.47], whatever the
    accumulator held: [0.98 - 0.01], [1.96 - 0.02] and [0.47 - 0.03]. *)
Example plain_step_values :
  Ex.fractions (acc_values Ex.st1) = Some [[2; 4]; [3]]%Q /\
  Ex.fractions (var_values Ex.st1) = Some [[49 # 50; 49 # 25]; [47 # 100]]%Q /\
  Ex.fractions (var_values Ex.st2_plain) = Some [[97 # 100; 97 # 50]; [11 # 25]]%Q /\
  Ex.fractions (var_values Ex.st2) = Some [[119 # 125; 238 # 125]; [413 # 1000]]%Q.
Proof. split_and!; vm_compute; reflexivity. Qed.
(** ** The broadcast (C2) *)

Section Convergence.
Context {F G : Type} `{Numeric F}.
Implicit Types st : trainer F G.
Implicit Types env : step_env F G.

Lemma snapshot_before_length st values (P : nat) :
  Forall (fun vars => length vars = P) (all_vars st) ->
  (forall values0, var_values st = Some values0 -> length values0 = P) ->
  snapshot_before st = Some values -> length values = P.
Proof.
  unfold snapshot_before. intros Hrows Hsnap.
  destruct (var_values st) as [values0|].
  - intros [= <-]. by apply Hsnap.
  - destruct (all_vars st) as [|vars0 replicas]; simpl; [done|].
    intros [= <-]. by apply Forall_cons in Hrows as [? _].
Qed.

(** One completed step leaves the new snapshot in every replica. *)
Lemma run_step_converges env st st' (P : nat) :
  Forall (fun vars => length vars = P) (all_vars st) ->
  (forall values, var_values st = Some values -> length values = P) ->
  run_step env st = Done st' ->
  exists values',
    var_values st' = Some values' /\ length values' = P /\
    all_vars st' = replicate (length (all_vars st)) values'.
Proof.
  intros Hrows Hsnap Hrun. apply run_step_with_Done in Hrun
    as (values & accs & values' & accs' & replicas' & log & Hbefore & Hacc & Hlog & Hload
        & -> & Hlv & Hla & Hin & Hout).
  apply (snapshot_before_length _ _ P Hrows Hsnap) in Hbefore.
  exists values'. simpl. split_and!; [done|lia|].
  apply load_all_full; [done|]. eapply Forall_impl; [exact Hrows|]. simpl. lia.
Qed.
End Convergence.

(** C2.  Take any number of replicas that hold the same number of
    parameters (and a host snapshot, if one is already held, of that many
    entries).  After every completed step of a run, each replica's store is
    the host snapshot, so all stores are equal to one another. *)
Theorem replicas_converge {F G : Type} `{Numeric F}
    (P : nat) (envs : list (step_env F G)) (st st' : trainer F G) :
  Forall (fun vars => length vars = P) (all_vars st) ->
  (forall values, var_values st = Some values -> length values = P) ->
  envs <> [] ->
  run_steps envs st = Done st' ->
  exists values',
    var_values st' = Some values' /\
    all_vars st' = replicate (length (all_vars st)) values'.
Proof.
  revert st. induction envs as [|env envs IH]; intros st Hrows Hsnap Hne Hrun; [done|].
  simpl in Hrun. destruct (run_step env st) as [st1|e st1] eqn:Hstep; simpl in Hrun; [|done].
  apply (run_step_converges _ _ _ P Hrows Hsnap) in Hstep as (values1 & Hv1 & Hl1 & Hall1).
  destruct envs as [|env2 envs].
  - simpl in Hrun. injection Hrun as <-. by exists values1.
  - apply IH in Hrun as (values' & Hv' & Hall'); [| |by intros ? [= <-]%(eq_trans (eq_sym Hv1))|done].
    + exists values'. split; [done|]. by rewrite Hall', Hall1, length_replicate.
    + rewrite Hall1. by apply Forall_replicate.
Qed.

Lemma replicas_converge_witness :
  Forall (fun vars : list (ndarray Qc) => length vars = 2) (all_vars Ex.st0) /\
  run_steps [Ex.env 2 true; Ex.env 1 true] Ex.st0 = Done Ex.st2 /\
  exists values',
    var_values Ex.st2 = Some values' /\
    all_vars Ex.st2 = replicate (length (all_vars Ex.st0)) values'.
Proof.
  assert (Hrows : Forall (fun vars : list (ndarray Qc) => length vars = 2) (all_vars Ex.st0)).
  { repeat constructor. }
  split; [exact Hrows|]. split; [vm_compute; reflexivity|].
  apply (replicas_converge 2 [Ex.env 2 true; Ex.env 1 true] Ex.st0 Ex.st2).
  - exact Hrows.
  - intros values Hv. discriminate Hv.
  - discriminate.
  - vm_compute; reflexivity.
Defined.

(** ** The authoritative replica (C3) *)

Section Authoritative.
Context {F G : Type} `{Numeric F}.
Implicit Types st : trainer F G.
Implicit Types env : step_env F G.


Lemma run_step_all_grads env st st' : run_step env st = Done st' -> all_grads st' = all_grads st.
Proof.
  intros Hrun. apply run_step_with_Done in Hrun
    as (? & ? & ? & ? & ? & ? & _ & _ & _ & _ & -> & _). done.
Qed.

End Authoritative.



(** ** Telemetry and the numeric state (C6, C9) *)

Section Noninterference.
Context {F G : Type} `{Numeric F}.
Implicit Types st : trainer F G.
Implicit Types env : step_env F G.

Lemma update_at_numeric lr0 m gs i st1 st2 :
  numeric st1 = numeric st2 ->
  numeric_outcome (update_at lr0 m gs i st1) = numeric_outcome (update_at lr0 m gs i st2).
Proof.
  destruct st1 as [replicas grads1 values accs count1 log1], st2 as [? grads2 ? ? count2 log2].
  unfold numeric. simpl. intros [= <- <- <-].
  unfold update_at, numeric_outcome, numeric. simpl.
  destruct values as [values|]; [|done].
  destruct (values !! i) as [v|]; [|done].
  destruct (gs !! i) as [g|]; [|done].
  destruct accs as [accs|]; [|done].
  destruct (accs !! i) as [acc|]; [|done].
  destruct (Np.add _ g) as [acc'|]; [|done]. simpl.
  destruct (Np.is_scalar v); [done|].
  by destruct (Np.isub v _).
Qed.


Lemma andThen_numeric (o1 o2 : outcome F G) (k1 k2 : trainer F G -> outcome F G) :
  numeric_outcome o1 = numeric_outcome o2 ->
  (forall st1 st2, numeric st1 = numeric st2 ->
                   numeric_outcome (k1 st1) = numeric_outcome (k2 st2)) ->
  numeric_outcome (andThen o1 k1) = numeric_outcome (andThen o2 k2).
Proof.
  intros Heq Hk. unfold numeric_outcome in Heq.
  destruct o1 as [st1|e1 st1], o2 as [st2|e2 st2]; simpl in *; try done.
  apply Hk. congruence.
Qed.

Lemma for_range_numeric lr0 m gs n : forall i st1 st2,
  numeric st1 = numeric st2 ->
  numeric_outcome (for_range (update_at lr0 m gs) i n st1)
  = numeric_outcome (for_range (update_at lr0 m gs) i n st2).
Proof.
  induction n as [|n IH]; intros i st1 st2 Heq; simpl.
  - unfold numeric_outcome. simpl. by rewrite Heq.
  - apply andThen_numeric; [by apply update_at_numeric|]. intros. by apply IH.
Qed.

Lemma set_values_numeric st1 st2 :
  numeric st1 = numeric st2 ->
  numeric_outcome (set_values st1) = numeric_outcome (set_values st2).
Proof.
  destruct st1 as [replicas grads1 values accs count1 log1], st2 as [? grads2 ? ? count2 log2].
  unfold numeric. simpl. intros [= <- <- <-].
  unfold set_values, numeric_outcome, numeric. simpl.
  destruct values as [values|].
  - by destruct (load_all values replicas) as [replicas' [e|]].
  - by destruct replicas.
Qed.

(** Steps that start from the same numeric state, receive the same
    gradients and whose sampling does not raise end the same way in the
    same numeric state, whatever the step counts, durations and monitors. *)
Lemma run_step_numeric lr0 m env1 env2 st1 st2 :
  numeric st1 = numeric st2 ->
  grad_values env1 st1 = grad_values env2 st2 ->
  is_Some (log_after env1 st1) -> is_Some (log_after env2 st2) ->
  numeric_outcome (run_step_with lr0 m env1 st1) = numeric_outcome (run_step_with lr0 m env2 st2).
Proof.
  intros Hnum Hgv [log1 Hlog1] [log2 Hlog2]. rewrite !run_step_with_unfold, Hlog1, Hlog2.
  assert (Hsnap : snapshot_before st1 = snapshot_before st2).
  { unfold snapshot_before. unfold numeric in Hnum. by injection Hnum as -> -> _. }
  assert (Hacc : acc_before env1 st1 = acc_before env2 st2).
  { unfold acc_before. rewrite Hgv. unfold numeric in Hnum. by injection Hnum as _ _ ->. }
  rewrite Hsnap. destruct (snapshot_before st2) as [values|].
  - rewrite Hgv. apply andThen_numeric.
    + apply for_range_numeric. unfold prepared, numeric. simpl. rewrite Hacc.
      unfold numeric in Hnum. by injection Hnum as -> _ _.
    + intros. by apply set_values_numeric.
  - unfold numeric_outcome, numeric in *. simpl. by injection Hnum as -> -> ->.
Qed.

Lemma run_step_log env st st' :
  run_step env st = Done st' ->
  step_count st' = (step_count st + 1)%Z /\ log_after env st = Some (monitors st').
Proof.
  intros Hrun. apply run_step_with_Done in Hrun
    as (? & ? & ? & ? & ? & log & _ & _ & Hlog & _ & -> & _). done.
Qed.
End Noninterference.

(** C6.  Two runs that start from the same replica stores, host snapshot
    and accumulator (in particular an absent one, zeroed at first use) and
    receive the same sequence of gradient sets have the same parameter
    trajectory and end in the same numeric state, whatever their step
    counters, timings, monitors and gradient tensor handles. *)
Theorem replay_is_deterministic {F G : Type} `{Numeric F}
    (envs1 envs2 : list (step_env F G)) (st1 st2 s1 s2 : trainer F G) :
  numeric st1 = numeric st2 ->
  (fun env => grad_values env st1) <$> envs1 = (fun env => grad_values env st2) <$> envs2 ->
  run_steps envs1 st1 = Done s1 ->
  run_steps envs2 st2 = Done s2 ->
  trajectory envs1 st1 = trajectory envs2 st2 /\ numeric s1 = numeric s2.
Proof.
  revert envs2 st1 st2.
  induction envs1 as [|env1 envs1 IH]; intros [|env2 envs2] st1 st2 Hnum Hgs Hrun1 Hrun2;
    try done; simpl in *.
  - injection Hrun1 as <-. injection Hrun2 as <-. done.
  - injection Hgs as Hg Hgs.
    destruct (run_step env1 st1) as [st1'|e1 st1'] eqn:Hstep1; simpl in Hrun1; [|done].
    destruct (run_step env2 st2) as [st2'|e2 st2'] eqn:Hstep2; simpl in Hrun2; [|done].
    assert (Hnum' : numeric st1' = numeric st2').
    { pose proof (run_step_numeric lr momentum env1 env2 st1 st2 Hnum Hg) as Hout.
      fold (run_step env1 st1) in Hout. fold (run_step env2 st2) in Hout.
      rewrite Hstep1, Hstep2 in Hout. unfold numeric_outcome in Hout. simpl in Hout.
      apply run_step_log in Hstep1 as [_ Hl1]. apply run_step_log in Hstep2 as [_ Hl2].
      specialize (Hout (mk_is_Some _ _ Hl1) (mk_is_Some _ _ Hl2)). congruence. }
    destruct (IH envs2 st1' st2') as [Htraj Hend]; try done.
    + unfold grad_values in *.
      by rewrite (run_step_all_grads _ _ _ Hstep1), (run_step_all_grads _ _ _ Hstep2).
    + split; [|done]. f_equal; [|done]. unfold numeric in Hnum'. congruence.
Qed.

Lemma replay_is_deterministic_witness :
  numeric Ex.st0 = numeric Ex.other_st0 /\
  run_steps [Ex.env 2 true; Ex.env 1 true] Ex.st0 = Done Ex.st2 /\
  run_steps [Ex.other_env 2; Ex.other_env 1] Ex.other_st0 = Done Ex.other_st2 /\
  trajectory [Ex.env 2 true; Ex.env 1 true] Ex.st0
  = trajectory [Ex.other_env 2; Ex.other_env 1] Ex.other_st0 /\
  numeric Ex.st2 = numeric Ex.other_st2.
Proof.
  split; [reflexivity|]. split; [vm_compute; reflexivity|]. split; [vm_compute; reflexivity|].
  apply (replay_is_deterministic [Ex.env 2 true; Ex.env 1 true]
           [Ex.other_env 2; Ex.other_env 1] Ex.st0 Ex.other_st0 Ex.st2 Ex.other_st2).
  - reflexivity.
  - reflexivity.
  - vm_compute; reflexivity.
  - vm_compute; reflexivity.
Defined.

(** Against C9 as stated.  A failing sink on the tenth step: [run_step]
    raises and does not complete, the accumulator is the one of the step
    before and no replica has been written; the numeric state differs from
    the one the step reaches when the sink accepts the scalar. *)
Lemma sink_failure_counterexample :
  sink_ok (Ex.env 1 false) = false /\
  run_step (Ex.env 1 false) Ex.st9 = Raised MonitorError Ex.st10_failed /\
  ~ (exists st', run_step (Ex.env 1 false) Ex.st9 = Done st') /\
  acc_values Ex.st10_failed = acc_values Ex.st9 /\
  all_vars Ex.st10_failed = all_vars Ex.st9 /\
  numeric Ex.st10 <> numeric Ex.st10_failed.
Proof.
  assert (Hrun : run_step (Ex.env 1 false) Ex.st9 = Raised MonitorError Ex.st10_failed).
  { vm_compute; reflexivity. }
  split; [reflexivity|]. split; [exact Hrun|]. split.
  { intros [st' Hdone]. rewrite Hrun in Hdone. discriminate Hdone. }
  split; [vm_compute; reflexivity|]. split; [vm_compute; reflexivity|].
  intros Heq. apply (f_equal (fun n => Ex.fractions (snd (fst n)))) in Heq.
  vm_compute in Heq. discriminate Heq.
Qed.

(** C9, amended.  An exception of the sink on a sampled step leaves
    [run_step] before the accumulator is updated or anything is loaded into
    a replica.  When the sampling does not raise, telemetry has no effect on
    control flow or numeric state: how the step ends, and in which numeric
    state, depends on the numeric state and the gradients only. *)
Theorem telemetry_and_numeric_state {F G : Type} `{Numeric F} :
  (forall (env : step_env F G) (st : trainer F G),
      sink_ok env = false -> ((step_count st + 1) mod 10 = 0)%Z ->
      is_Some (snapshot_before st) ->
      exists st', run_step env st = Raised MonitorError st' /\
                  acc_values st' = acc_values st /\ all_vars st' = all_vars st /\
                  var_values st' = snapshot_before st) /\
  (forall (env1 env2 : step_env F G) (st1 st2 : trainer F G),
      numeric st1 = numeric st2 ->
      grad_values env1 st1 = grad_values env2 st2 ->
      is_Some (log_after env1 st1) -> is_Some (log_after env2 st2) ->
      numeric_outcome (run_step env1 st1) = numeric_outcome (run_step env2 st2)).
Proof.
  split.
  - intros env st Hsink Hmod [values Hsnap]. unfold run_step.
    rewrite run_step_with_unfold, Hsnap. unfold log_after.
    apply Z.eqb_eq in Hmod. rewrite Hmod, Hsink. eexists. by split_and!.
  - intros env1 env2 st1 st2. apply run_step_numeric.
Qed.

Lemma telemetry_and_numeric_state_witness :
  (exists st', run_step (Ex.env 1 false) Ex.st9 = Raised MonitorError st' /\
               acc_values st' = acc_values Ex.st9 /\ all_vars st' = all_vars Ex.st9 /\
               var_values st' = snapshot_before Ex.st9) /\
  numeric_outcome (run_step (Ex.env 2 true) Ex.st0)
  = numeric_outcome (run_step (Ex.other_env 2) Ex.other_st0).
Proof.
  destruct (@telemetry_and_numeric_state Qc nat _) as [Hfail Hsame]. split.
  - apply (Hfail (Ex.env 1 false) Ex.st9).
    + reflexivity.
    + vm_compute; reflexivity.
    + eexists. vm_compute; reflexivity.
  - apply (Hsame (Ex.env 2 true) (Ex.other_env 2) Ex.st0 Ex.other_st0).
    + reflexivity.
    + reflexivity.
    + eexists. vm_compute; reflexivity.
    + eexists. vm_compute; reflexivity.
Defined.

(** ** The sampling cadence (C8) *)

Section Cadence.
Context {F G : Type} `{Numeric F}.
Implicit Types st : trainer F G.
Implicit Types env : step_env F G.

Lemma log_after_sampled env st log :
  (0 <= step_count st)%Z -> log_after env st = Some log ->
  log = monitors st ++
        (if sampled (step_count st + 1) then [("step_time"%string, duration env)] else []).
Proof.
  unfold log_after, sampled. intros Hpos.
  replace (0 <? step_count st + 1)%Z with true by (symmetry; apply Z.ltb_lt; lia). simpl.
  destruct (_ =? 0)%Z.
  - destruct (sink_ok env); [|done]. by intros [= <-].
  - intros [= <-]. by rewrite app_nil_r.
Qed.

Lemma run_steps_log envs : forall st st',
  (0 <= step_count st)%Z -> run_steps envs st = Done st' ->
  step_count st' = (step_count st + Z.of_nat (length envs))%Z /\
  monitors st' = monitors st ++ expected_log (step_count st) envs.
Proof.
  induction envs as [|env envs IH]; intros st st' Hpos Hrun; simpl in Hrun.
  - injection Hrun as <-. simpl. split; [lia|]. by rewrite app_nil_r.
  - destruct (run_step env st) as [st1|e st1] eqn:Hstep; simpl in Hrun; [|done].
    apply run_step_log in Hstep as [Hcount Hlog].
    apply log_after_sampled in Hlog; [|done].
    apply IH in Hrun as [Hcount' Hlog']; [|lia].
    split; [rewrite Hcount', Hcount; simpl length; lia|].
    rewrite Hlog', Hlog, Hcount. simpl. by rewrite <- app_assoc.
Qed.
End Cadence.

(** C8.  In a run that starts with the step counter at zero, the counter
    is the number of steps made and the monitors have received one
    [step_time] scalar for each step whose count is a positive multiple of
    ten, in order, and nothing for any other step. *)
Theorem telemetry_every_tenth_step {F G : Type} `{Numeric F}
    (envs : list (step_env F G)) (st st' : trainer F G) :
  step_count st = 0%Z ->
  run_steps envs st = Done st' ->
  step_count st' = Z.of_nat (length envs) /\
  monitors st' = monitors st ++ expected_log 0 envs.
Proof.
  intros Hzero Hrun. apply run_steps_log in Hrun as [Hcount Hlog]; [|lia].
  rewrite Hzero in *. done.
Qed.

Lemma telemetry_every_tenth_step_witness :
  step_count Ex.st0 = 0%Z /\
  run_steps Ex.envs25 Ex.st0 = Done Ex.st25 /\
  step_count Ex.st25 = Z.of_nat (length Ex.envs25) /\
  monitors Ex.st25 = monitors Ex.st0 ++ expected_log 0 Ex.envs25.
Proof.
  split; [reflexivity|]. split; [vm_compute; reflexivity|].
  apply (telemetry_every_tenth_step Ex.envs25 Ex.st0 Ex.st25).
  - reflexivity.
  - vm_compute; reflexivity.
Defined.

(** In the run of twenty-five steps the monitors hold the durations of
    steps 10 and 20. *)
Example telemetry_of_25_steps :
  monitors Ex.st25 = [("step_time"%string, (10 / 4)%Q); ("step_time"%string, (20 / 4)%Q)].
Proof. vm_compute. reflexivity. Qed.

(** ** No trainable parameter (C10) *)

Section NoParameters.
Context {F G : Type} `{Numeric F}.
Implicit Types st : trainer F G.
Implicit Types env : step_env F G.

Lemma parameterless_step env st :
  parameterless st -> sink_ok env = true ->
  exists st',
    run_step env st = Done st' /\ parameterless st' /\ all_vars st' = all_vars st /\
    var_values st' = Some [] /\ acc_values st' = Some [] /\
    acc_before env st = Some [].
Proof.
  intros (Hg & Hne & Hall & Hv & Hacc) Hsink.
  assert (Hsnap : snapshot_before st = Some []).
  { unfold snapshot_before. destruct Hv as [-> | ->]; [|done].
    destruct (all_vars st) as [|vars0 replicas]; [done|].
    apply Forall_cons in Hall as [-> _]. done. }
  assert (Hbefore : acc_before env st = Some []).
  { unfold acc_before, grad_values. by rewrite Hacc, Hg. }
  assert (Hlog : is_Some (log_after env st)).
  { unfold log_after. rewrite Hsink. by destruct (_ =? 0)%Z. }
  destruct Hlog as [log Hlog].
  unfold run_step. rewrite run_step_with_unfold, Hsnap, Hlog. simpl.
  unfold set_values, prepared. simpl. rewrite load_all_nil. eexists. split; [done|].
  rewrite Hbefore. unfold parameterless. simpl. split_and!; try done. by right.
Qed.
End NoParameters.

(** C10.  With no trainable parameter, on any positive number of replicas,
    every step completes (the sink permitting): the check at line 169 finds
    the accumulator falsy before the first step and again after every step,
    when it is the empty list, so that each step creates it anew; snapshot
    and accumulator stay empty and the replica stores are untouched. *)
Theorem parameterless_steps_recreate_accumulator {F G : Type} `{Numeric F}
    (bg : list (list (G * ndarray F))) (self st : trainer F G)
    (envs : list (step_env F G)) :
  Forall (fun grads => grads = []) bg ->
  var_values self = None ->
  setup_graph bg self = Done st ->
  Forall (fun env => sink_ok env = true) envs ->
  exists st',
    run_steps envs st = Done st' /\
    acc_uninitialized (acc_values st') = true /\
    all_vars st' = all_vars st /\
    (envs <> [] -> var_values st' = Some [] /\ acc_values st' = Some []) /\
    (forall env, acc_before env st' = Some (Np.zeros_like <$> grad_values env st')).
Proof.
  intros Hempty Hnone Hsetup Hsink.
  assert (Hinv : parameterless st).
  { apply setup_graph_Done in Hsetup as (grads0 & rest & -> & ->).
    apply Forall_cons in Hempty as [-> Hrest]. unfold parameterless. simpl.
    split_and!; try done; [|by left].
    constructor; [done|]. apply Forall_fmap. eapply Forall_impl; [exact Hrest|].
    by intros grads ->. }
  clear Hsetup Hempty Hnone bg self.
  assert (Hgen : exists st',
             run_steps envs st = Done st' /\ parameterless st' /\ all_vars st' = all_vars st /\
             (envs <> [] -> var_values st' = Some [] /\ acc_values st' = Some [])).
  { revert st Hinv. induction Hsink as [|env envs Hok Hsink IH]; intros st Hinv.
    - exists st. by split_and!.
    - destruct (parameterless_step env st Hinv Hok)
        as (st1 & Hstep & Hinv1 & Hall1 & Hv1 & Ha1 & _).
      destruct (IH st1 Hinv1) as (st' & Hrun & Hinv' & Hall' & Hlast).
      exists st'. simpl. rewrite Hstep. simpl. split_and!; try done; [congruence|].
      intros _. destruct envs as [|env2 envs]; [|by apply Hlast].
      simpl in Hrun. by injection Hrun as <-. }
  destruct Hgen as (st' & Hrun & Hinv' & Hall' & Hlast).
  exists st'. split_and!; try done.
  - by destruct Hinv' as (_ & _ & _ & _ & ?).
  - intros env. unfold acc_before. by destruct Hinv' as (_ & _ & _ & _ & ->).
Qed.

Lemma parameterless_steps_recreate_accumulator_witness :
  setup_graph [[]; []; []] fresh = Done Ex.empty_st0 /\
  exists st',
    run_steps [Ex.env 1 true; Ex.env 2 true; Ex.env 3 true] Ex.empty_st0 = Done st' /\
    acc_uninitialized (acc_values st') = true /\
    all_vars st' = all_vars Ex.empty_st0 /\
    ([Ex.env 1 true; Ex.env 2 true; Ex.env 3 true] <> [] ->
     var_values st' = Some [] /\ acc_values st' = Some []) /\
    (forall env, acc_before env st' = Some (Np.zeros_like <$> grad_values env st')).
Proof.
  split; [reflexivity|].
  apply (parameterless_steps_recreate_accumulator [[]; []; []] fresh Ex.empty_st0
           [Ex.env 1 true; Ex.env 2 true; Ex.env 3 true]).
  - repeat constructor.
  - reflexivity.
  - reflexivity.
  - repeat constructor.
Defined.

(** ** More about the broadcast: [_get_values] and [_set_values] *)

Section BroadcastShape.
Context {F G : Type} `{Numeric F}.
Implicit Types st : trainer F G.
Implicit Types values vars : list (ndarray F).
Implicit Types replicas : list (list (ndarray F)).

Lemma load_zip_zipped values : forall vars vars',
  load_zip values vars = (vars', None) -> vars' = zipped values vars.
Proof.
  unfold zipped.
  induction values as [|val values IH]; intros [|var vars] vars' Hz; simpl in *;
    try (by injection Hz as <-).
  unfold load in Hz. case_decide; [|done].
  destruct (load_zip values vars) as [rest e] eqn:Hrest.
  injection Hz as <- ->. f_equal. by apply IH.
Qed.

Lemma load_all_zipped values : forall replicas replicas',
  load_all values replicas = (replicas', None) -> replicas' = zipped values <$> replicas.
Proof.
  induction replicas as [|vars replicas IH]; intros replicas' Hl; simpl in *.
  - by injection Hl as <-.
  - destruct (load_zip values vars) as [vars' [e|]] eqn:Hz; [done|].
    destruct (load_all values replicas) as [rest e] eqn:Hrest.
    injection Hl as <- ->. csimpl. f_equal.
    + by apply load_zip_zipped.
    + by apply IH.
Qed.

Lemma load_zip_length values : forall vars, length (load_zip values vars).1 = length vars.
Proof.
  induction values as [|val values IH]; intros [|var vars]; simpl; try done.
  destruct (load var val); [|done].
  specialize (IH vars). destruct (load_zip values vars) as [rest e]. simpl in *. by rewrite IH.
Qed.

Lemma load_all_lengths values : forall replicas,
  Forall2 (fun vars vars' => length vars' = length vars) replicas (load_all values replicas).1.
Proof.
  induction replicas as [|vars replicas IH]; simpl; [constructor|].
  pose proof (load_zip_length values vars) as Hz.
  destruct (load_zip values vars) as [vars' [e|]]; simpl in *.
  - constructor; [done|]. by apply Forall_Forall2_diag, Forall_true.
  - destruct (load_all values replicas) as [rest e]. simpl in *. by constructor.
Qed.

(** Loading a replica that already holds the values changes nothing. *)
Lemma load_zip_again values : forall vars,
  load_zip values (zipped values vars) = (zipped values vars, None).
Proof.
  unfold zipped.
  induction values as [|val values IH]; intros [|var vars]; simpl; try done.
  unfold load. rewrite decide_True by done. by rewrite IH.
Qed.

Lemma load_all_again values : forall replicas,
  load_all values (zipped values <$> replicas) = (zipped values <$> replicas, None).
Proof.
  induction replicas as [|vars replicas IH]; csimpl; [done|].
  by rewrite load_zip_again, IH.
Qed.

Lemma load_zip_self vars : load_zip vars vars = (vars, None).
Proof.
  induction vars as [|var vars IH]; simpl; [done|].
  unfold load. rewrite decide_True by done. by rewrite IH.
Qed.

Lemma load_zip_raises values : forall vars vars' e,
  load_zip values vars = (vars', Some e) -> e = ValueError.
Proof.
  induction values as [|val values IH]; intros [|var vars] vars' e Hz; simpl in *; try done.
  destruct (load var val).
  - destruct (load_zip values vars) as [rest e'] eqn:Hrest. injection Hz as _ ->.
    by eapply IH.
  - by injection Hz as _ <-.
Qed.

(** How the outer loop stops: the replicas before the failing one have
    been loaded, the failing one partly, the ones after it not at all. *)
Lemma load_all_raises values : forall replicas replicas' e,
  load_all values replicas = (replicas', Some e) ->
  e = ValueError /\
  exists k vars vars',
    replicas !! k = Some vars /\ replicas' !! k = Some vars' /\
    load_zip values vars = (vars', Some ValueError) /\
    take k replicas' = zipped values <$> take k replicas /\
    drop (S k) replicas' = drop (S k) replicas.
Proof.
  induction replicas as [|vars replicas IH]; intros replicas' e Hl; simpl in *; [done|].
  destruct (load_zip values vars) as [vars' [e'|]] eqn:Hz.
  - injection Hl as <- <-. pose proof (load_zip_raises _ _ _ _ Hz) as ->.
    split; [done|]. by exists 0, vars, vars'.
  - destruct (load_all values replicas) as [rest e'] eqn:Hrest. injection Hl as <- ->.
    destruct (IH rest e eq_refl) as (-> & k & vars1 & vars1' & H1 & H2 & H3 & H4 & H5).
    split; [done|]. exists (S k), vars1, vars1'. split_and!; try done.
    csimpl. f_equal; [by apply load_zip_zipped|done].
Qed.
End BroadcastShape.

(** X1.  A broadcast that completes writes into every replica the leading
    values of the snapshot, as many as the replica has variables, and
    leaves the variables beyond the snapshot's length as they are: [zip]
    reports no difference of lengths.  Nothing else of the trainer changes. *)
Theorem set_values_zip_truncates {F G : Type} `{Numeric F}
    (st st' : trainer F G) (values : list (ndarray F)) :
  var_values st = Some values ->
  set_values st = Done st' ->
  st' = set_all_vars (zipped values <$> all_vars st) st.
Proof.
  intros Hv Hset.
  apply set_values_Done in Hset as [[Hnone _]|(values0 & replicas' & Hv0 & Hl & ->)];
    [congruence|].
  rewrite Hv in Hv0. injection Hv0 as <-. by apply load_all_zipped in Hl as ->.
Qed.

Lemma set_values_zip_truncates_witness :
  var_values Ex.st_long = Some Ex.values1 /\
  set_values Ex.st_long = Done Ex.st_long_set /\
  Ex.st_long_set = set_all_vars (zipped Ex.values1 <$> all_vars Ex.st_long) Ex.st_long.
Proof.
  split; [reflexivity|]. split; [vm_compute; reflexivity|].
  apply (set_values_zip_truncates Ex.st_long Ex.st_long_set Ex.values1).
  - reflexivity.
  - vm_compute; reflexivity.
Defined.

(** X2.  Broadcasting twice is broadcasting once: after a completed
    [_set_values] a second one completes and changes nothing. *)
Theorem set_values_idempotent {F G : Type} `{Numeric F} (st st' : trainer F G) :
  set_values st = Done st' -> set_values st' = Done st'.
Proof.
  unfold set_values at 1. destruct (var_values st) as [values|] eqn:Hv.
  - destruct (load_all values (all_vars st)) as [replicas' [e|]] eqn:Hl; [done|].
    intros [= <-]. apply load_all_zipped in Hl as ->.
    unfold set_values. simpl. rewrite Hv. by rewrite load_all_again.
  - destruct (all_vars st) eqn:Hall; [|done]. intros [= <-].
    unfold set_values. by rewrite Hv, Hall.
Qed.

Lemma set_values_idempotent_witness :
  set_values Ex.st_long = Done Ex.st_long_set /\
  set_values Ex.st_long_set = Done Ex.st_long_set.
Proof.
  split; [vm_compute; reflexivity|].
  apply (set_values_idempotent Ex.st_long Ex.st_long_set).
  vm_compute; reflexivity.
Defined.

(** X3.  [_set_values] never adds or removes a replica or a variable,
    whether it completes or raises. *)
Theorem set_values_keeps_counts {F G : Type} `{Numeric F} (st : trainer F G) :
  Forall2 (fun vars vars' => length vars' = length vars)
          (all_vars st) (all_vars (final (set_values st))).
Proof.
  unfold set_values. destruct (var_values st) as [values|].
  - pose proof (load_all_lengths values (all_vars st)) as Hl.
    by destruct (load_all values (all_vars st)) as [replicas' [e|]].
  - destruct (all_vars st) eqn:Hall; simpl; rewrite Hall;
      by apply Forall_Forall2_diag, Forall_true.
Qed.

(** X4.  A broadcast that raises is not undone: the exception is the
    [ValueError] of a load, the replicas before the failing one hold the
    new values, the replicas after it their old ones. *)
Theorem set_values_failure_is_partial {F G : Type} `{Numeric F}
    (st st' : trainer F G) (values : list (ndarray F)) (e : exn) :
  var_values st = Some values ->
  set_values st = Raised e st' ->
  e = ValueError /\
  exists k vars vars',
    all_vars st !! k = Some vars /\ all_vars st' !! k = Some vars' /\
    load_zip values vars = (vars', Some ValueError) /\
    take k (all_vars st') = zipped values <$> take k (all_vars st) /\
    drop (S k) (all_vars st') = drop (S k) (all_vars st).
Proof.
  unfold set_values. intros ->.
  destruct (load_all values (all_vars st)) as [replicas' [e'|]] eqn:Hl; [|done].
  intros [= <- <-]. simpl. by apply load_all_raises.
Qed.

Lemma set_values_failure_is_partial_witness :
  var_values Ex.st_bad = Some Ex.values1 /\
  set_values Ex.st_bad = Raised ValueError Ex.st_bad_set /\
  exists k vars vars',
    all_vars Ex.st_bad !! k = Some vars /\ all_vars Ex.st_bad_set !! k = Some vars' /\
    load_zip Ex.values1 vars = (vars', Some ValueError) /\
    take k (all_vars Ex.st_bad_set) = zipped Ex.values1 <$> take k (all_vars Ex.st_bad) /\
    drop (S k) (all_vars Ex.st_bad_set) = drop (S k) (all_vars Ex.st_bad).
Proof.
  split; [reflexivity|]. split; [vm_compute; reflexivity|].
  apply (set_values_failure_is_partial Ex.st_bad Ex.st_bad_set Ex.values1 ValueError).
  - reflexivity.
  - vm_compute; reflexivity.
Defined.

(** X5.  Pulling the snapshot and broadcasting it at once leaves replica 0
    as it was, whatever happens to the other replicas. *)
Theorem get_then_set_keeps_replica0 {F G : Type} `{Numeric F} (st st1 : trainer F G) :
  get_values st = Done st1 ->
  var_values st1 = head (all_vars st) /\
  head (all_vars (final (set_values st1))) = head (all_vars st).
Proof.
  unfold get_values. destruct (all_vars st) as [|vars0 rest] eqn:Hall; [done|].
  intros [= <-]. split; [done|]. unfold set_values. simpl. rewrite Hall. simpl.
  rewrite load_zip_self. by destruct (load_all vars0 rest) as [rest' [e|]].
Qed.

Lemma get_then_set_keeps_replica0_witness :
  get_values Ex.st0 = Done Ex.st0_pulled /\
  var_values Ex.st0_pulled = head (all_vars Ex.st0) /\
  head (all_vars (final (set_values Ex.st0_pulled))) = head (all_vars Ex.st0).
Proof.
  split; [reflexivity|].
  apply (get_then_set_keeps_replica0 Ex.st0 Ex.st0_pulled). reflexivity.
Defined.

(** ** What every call of [run_step] keeps, completed or not *)

Section EveryOutcome.
Context {F G : Type} `{Numeric F}.
Implicit Types st : trainer F G.
Implicit Types env : step_env F G.
Implicit Types values accs gs : list (ndarray F).

Lemma same_shapes_refl values : same_shapes values values.
Proof. by apply Forall_Forall2_diag, Forall_true. Qed.

Lemma same_shapes_trans values1 values2 values3 :
  same_shapes values1 values2 -> same_shapes values2 values3 -> same_shapes values1 values3.
Proof.
  unfold same_shapes. revert values2 values3.
  induction values1 as [|v1 values1 IH]; intros values2 values3 H12 H23.
  - apply Forall2_nil_inv_l in H12 as ->. by apply Forall2_nil_inv_l in H23 as ->.
  - apply Forall2_cons_inv_l in H12 as (v2 & values2' & [Hs12 Hl12] & H12 & ->).
    apply Forall2_cons_inv_l in H23 as (v3 & values3' & [Hs23 Hl23] & H23 & ->).
    constructor; [split; congruence|]. by eapply IH.
Qed.

Lemma same_shapes_insert values i (v v' : ndarray F) :
  values !! i = Some v -> shape v' = shape v -> length (data v') = length (data v) ->
  same_shapes values (<[i:=v']> values).
Proof.
  intros Hi Hs Hl. unfold same_shapes.
  rewrite <- (list_insert_id values i v Hi) at 1.
  apply Forall2_insert; [apply same_shapes_refl|done].
Qed.

(** One iteration, however it ends: snapshot and accumulator are still
    lists, the snapshot has its shapes and the accumulator its number of
    buffers. *)
Lemma update_at_final lr0 m gs i st values accs :
  var_values st = Some values -> acc_values st = Some accs ->
  exists values2 accs2,
    var_values (final (update_at lr0 m gs i st)) = Some values2 /\
    acc_values (final (update_at lr0 m gs i st)) = Some accs2 /\
    same_shapes values values2 /\ length accs2 = length accs.
Proof.
  intros Hv Ha. unfold update_at. rewrite Hv, Ha.
  pose proof (same_shapes_refl values) as Hrefl.
  assert (Hstay : forall e,
            exists values2 accs2,
              var_values (final (Raised e st)) = Some values2 /\
              acc_values (final (Raised e st)) = Some accs2 /\
              same_shapes values values2 /\ length accs2 = length accs).
  { intros e. exists values, accs. simpl. by split_and!. }
  destruct (values !! i) as [v|] eqn:Hvi; [|apply Hstay].
  destruct (gs !! i) as [g|]; [|apply Hstay].
  destruct (accs !! i) as [acc|]; [|apply Hstay].
  destruct (Np.add _ g) as [acc'|]; [|apply Hstay].
  simpl. destruct (Np.is_scalar v); simpl.
  { exists values, (<[i:=acc']> accs). split_and!; try done. by rewrite length_insert. }
  destruct (Np.isub v _) as [v'|] eqn:Hsub; simpl.
  - exists (<[i:=v']> values), (<[i:=acc']> accs). split_and!; try done.
    + apply isub_shape in Hsub as [Hs Hl]. by apply same_shapes_insert with v.
    + by rewrite length_insert.
  - exists values, (<[i:=acc']> accs). split_and!; try done.
    by rewrite length_insert.
Qed.

Lemma for_range_final lr0 m gs n : forall i st values accs,
  var_values st = Some values -> acc_values st = Some accs ->
  exists values2 accs2,
    var_values (final (for_range (update_at lr0 m gs) i n st)) = Some values2 /\
    acc_values (final (for_range (update_at lr0 m gs) i n st)) = Some accs2 /\
    same_shapes values values2 /\ length accs2 = length accs.
Proof.
  induction n as [|n IH]; intros i st values accs Hv Ha; simpl.
  - exists values, accs. split_and!; try done. apply same_shapes_refl.
  - destruct (update_at_final lr0 m gs i st values accs Hv Ha)
      as (values1 & accs1 & Hv1 & Ha1 & Hs1 & Hl1).
    destruct (update_at lr0 m gs i st) as [st1|e st1] eqn:Hbody; simpl in *.
    + destruct (IH (S i) st1 values1 accs1 Hv1 Ha1)
        as (values2 & accs2 & Hv2 & Ha2 & Hs2 & Hl2).
      exists values2, accs2. split_and!; try done; try congruence.
      by eapply same_shapes_trans.
    + exists values1, accs1. by split_and!.
Qed.

(** [_set_values] touches the replica stores only. *)
Lemma set_values_frame st :
  let st' := final (set_values st) in
  var_values st' = var_values st /\ acc_values st' = acc_values st /\
  all_grads st' = all_grads st /\ step_count st' = step_count st /\
  monitors st' = monitors st.
Proof.
  unfold set_values. destruct (var_values st) as [values|] eqn:Hv.
  - by destruct (load_all values (all_vars st)) as [replicas' [e|]].
  - by destruct (all_vars st).
Qed.

End EveryOutcome.

Section EveryStep.
Context {F G : Type} `{Numeric F}.
Implicit Types st : trainer F G.
Implicit Types env : step_env F G.
Implicit Types values accs gs : list (ndarray F).

Lemma update_at_host lr0 m gs i st1 st2 :
  var_values st1 = var_values st2 -> acc_values st1 = acc_values st2 ->
  host_outcome (update_at lr0 m gs i st1) = host_outcome (update_at lr0 m gs i st2).
Proof.
  destruct st1 as [replicas1 grads1 values accs count1 log1],
           st2 as [replicas2 grads2 ? ? count2 log2].
  simpl. intros <- <-. unfold update_at, host_outcome. simpl.
  destruct values as [values|]; [|done].
  destruct (values !! i) as [v|]; [|done].
  destruct (gs !! i) as [g|]; [|done].
  destruct accs as [accs|]; [|done].
  destruct (accs !! i) as [acc|]; [|done].
  destruct (Np.add _ g) as [acc'|]; [|done]. simpl.
  destruct (Np.is_scalar v); [done|].
  by destruct (Np.isub v _).
Qed.

Lemma for_range_host lr0 m gs n : forall i st1 st2,
  var_values st1 = var_values st2 -> acc_values st1 = acc_values st2 ->
  host_outcome (for_range (update_at lr0 m gs) i n st1)
  = host_outcome (for_range (update_at lr0 m gs) i n st2).
Proof.
  induction n as [|n IH]; intros i st1 st2 Hv Ha; simpl.
  - unfold host_outcome. simpl. by rewrite Hv, Ha.
  - pose proof (update_at_host lr0 m gs i st1 st2 Hv Ha) as Hbody.
    unfold host_outcome in Hbody.
    destruct (update_at lr0 m gs i st1) as [st1'|e1 st1'],
             (update_at lr0 m gs i st2) as [st2'|e2 st2']; simpl in *; try done.
    apply IH; congruence.
Qed.

(** The broadcast that ends a step changes neither snapshot nor
    accumulator. *)
Lemma andThen_set_values_host (o : outcome F G) :
  (host_outcome (andThen o set_values)).2 = (host_outcome o).2.
Proof.
  unfold host_outcome. destruct o as [st3|e st3]; simpl; [|done].
  destruct (set_values_frame st3) as (-> & -> & _). done.
Qed.
End EveryStep.

(** X6.  The module counter counts calls of [run_step], not completed
    steps: it is one higher after every call, also after one that raises. *)
Theorem run_step_counts_calls {F G : Type} `{Numeric F}
    (env : step_env F G) (st : trainer F G) :
  step_count (final (run_step env st)) = (step_count st + 1)%Z.
Proof.
  unfold run_step. rewrite run_step_with_unfold.
  destruct (snapshot_before st) as [values|]; [|done].
  destruct (log_after env st) as [log|]; [|done].
  pose proof (for_range_frame lr momentum (grad_values env st) (length values) 0
                (prepared env st values log)) as Hframe.
  cbv zeta in Hframe. destruct Hframe as (_ & _ & Hcount & _).
  destruct (for_range _ 0 _ _) as [st3|e st3]; simpl in *; [|done].
  by destruct (set_values_frame st3) as (_ & _ & _ & -> & _).
Qed.

(** X7.  A call of [run_step] hands the monitors at most one scalar, the
    duration of this step under the name [step_time], and does so exactly
    when a snapshot is at hand, the new count is a multiple of ten and the
    monitors accept it; what follows in the step, failing or not, does not
    change what the monitors received. *)
Theorem run_step_monitors {F G : Type} `{Numeric F}
    (env : step_env F G) (st : trainer F G) :
  monitors (final (run_step env st))
  = monitors st ++
    (if bool_decide (is_Some (snapshot_before st))
        && (((step_count st + 1) mod 10 =? 0)%Z && sink_ok env)
     then [("step_time"%string, duration env)] else []).
Proof.
  unfold run_step. rewrite run_step_with_unfold.
  destruct (snapshot_before st) as [values|] eqn:Hsnap.
  - rewrite bool_decide_true by done. simpl. unfold log_after.
    destruct (_ =? 0)%Z eqn:Hmod; simpl.
    + destruct (sink_ok env); simpl; [|by rewrite app_nil_r].
      set (log := monitors st ++ _).
      pose proof (for_range_frame lr momentum (grad_values env st) (length values) 0
                    (prepared env st values log)) as Hframe.
      cbv zeta in Hframe. destruct Hframe as (_ & _ & _ & Hlog).
      destruct (for_range _ 0 _ _) as [st3|e st3]; simpl in *; [|done].
      by destruct (set_values_frame st3) as (_ & _ & _ & _ & ->).
    + rewrite app_nil_r.
      pose proof (for_range_frame lr momentum (grad_values env st) (length values) 0
                    (prepared env st values (monitors st))) as Hframe.
      cbv zeta in Hframe. destruct Hframe as (_ & _ & _ & Hlog).
      destruct (for_range _ 0 _ _) as [st3|e st3]; simpl in *; [|done].
      by destruct (set_values_frame st3) as (_ & _ & _ & _ & ->).
  - rewrite bool_decide_false by (by intros [? ?]). simpl. by rewrite app_nil_r.
Qed.

(** X8.  On a step whose new count is not a multiple of ten the monitors
    are not called: the step is the same whether they would accept a scalar
    or raise, and whatever duration was measured. *)
Theorem unsampled_step_ignores_sink {F G : Type} `{Numeric F}
    (env1 env2 : step_env F G) (st : trainer F G) :
  ((step_count st + 1) mod 10 <> 0)%Z ->
  (forall g, g ∈ all_grads st -> eval_grad env1 g = eval_grad env2 g) ->
  run_step env1 st = run_step env2 st.
Proof.
  intros Hmod Hg.
  assert (Hgv : grad_values env1 st = grad_values env2 st).
  { unfold grad_values. apply list_fmap_ext. intros i g Hi. apply Hg.
    apply list_elem_of_lookup. by exists i. }
  unfold run_step. rewrite !run_step_with_unfold.
  unfold log_after, prepared, acc_before. rewrite Hgv.
  apply Z.eqb_neq in Hmod. by rewrite Hmod.
Qed.

Lemma unsampled_step_ignores_sink_witness :
  ((step_count Ex.st0 + 1) mod 10 <> 0)%Z /\
  run_step (Ex.env 2 true) Ex.st0 = run_step (Ex.env 2 false) Ex.st0.
Proof.
  assert (Hmod : ((step_count Ex.st0 + 1) mod 10 <> 0)%Z) by (vm_compute; discriminate).
  split; [exact Hmod|].
  apply (unsampled_step_ignores_sink (Ex.env 2 true) (Ex.env 2 false) Ex.st0).
  - exact Hmod.
  - reflexivity.
Defined.

(** X9.  The replicas are read at the warm-up only, and only replica 0:
    the snapshot and the accumulator a call of [run_step] ends with do not
    depend on what the replicas hold once a snapshot exists, nor on what the
    replicas other than 0 hold before. *)
Theorem replicas_read_at_warm_up_only {F G : Type} `{Numeric F}
    (env : step_env F G) (st : trainer F G) (replicas' : list (list (ndarray F))) :
  (var_values st = None -> head replicas' = head (all_vars st)) ->
  (host_outcome (run_step env (set_all_vars replicas' st))).2
  = (host_outcome (run_step env st)).2.
Proof.
  intros Hhead. unfold run_step. rewrite !run_step_with_unfold.
  assert (Hsnap : snapshot_before (set_all_vars replicas' st) = snapshot_before st).
  { unfold snapshot_before. simpl. destruct (var_values st); [done|]. by apply Hhead. }
  rewrite Hsnap.
  change (log_after env (set_all_vars replicas' st)) with (log_after env st).
  change (grad_values env (set_all_vars replicas' st)) with (grad_values env st).
  destruct (snapshot_before st) as [values|]; [|done].
  destruct (log_after env st) as [log|]; [|done].
  rewrite !andThen_set_values_host. f_equal. by apply for_range_host.
Qed.

Lemma replicas_read_at_warm_up_only_witness :
  (host_outcome (run_step (Ex.env 1 true) (set_all_vars [[Ex.vec [Ex.q 0]]] Ex.st1))).2
  = (host_outcome (run_step (Ex.env 1 true) Ex.st1)).2.
Proof.
  apply (replicas_read_at_warm_up_only (Ex.env 1 true) Ex.st1 [[Ex.vec [Ex.q 0]]]).
  intros Hnone. vm_compute in Hnone. discriminate Hnone.
Defined.

Section Invariants.
Context {F G : Type} `{Numeric F}.
Implicit Types st : trainer F G.
Implicit Types env : step_env F G.
Implicit Types values accs gs : list (ndarray F).

Lemma run_step_keeps_shapes env st values :
  snapshot_before st = Some values ->
  exists values',
    var_values (final (run_step env st)) = Some values' /\ same_shapes values values'.
Proof.
  intros Hsnap. unfold run_step. rewrite run_step_with_unfold, Hsnap.
  destruct (log_after env st) as [log|]; [|exists values; split; [done|apply same_shapes_refl]].
  destruct (acc_before_is_Some env st) as [accs Hacc].
  destruct (for_range_final lr momentum (grad_values env st) (length values) 0
              (prepared env st values log) values accs eq_refl Hacc)
    as (values' & accs' & Hv' & _ & Hs & _).
  exists values'. split; [|done].
  destruct (for_range _ 0 _ _) as [st3|e st3]; simpl in *; [|done].
  by destruct (set_values_frame st3) as (-> & _).
Qed.

Lemma run_step_keeps_buffers env st accs :
  acc_values st = Some accs -> accs <> [] ->
  exists accs',
    acc_values (final (run_step env st)) = Some accs' /\ length accs' = length accs.
Proof.
  intros Ha Hne. unfold run_step. rewrite run_step_with_unfold.
  destruct (snapshot_before st) as [values|]; [|by exists accs].
  destruct (log_after env st) as [log|]; [|by exists accs].
  assert (Hacc : acc_before env st = Some accs).
  { unfold acc_before. rewrite Ha. by destruct accs. }
  destruct (for_range_final lr momentum (grad_values env st) (length values) 0
              (prepared env st values log) values accs eq_refl Hacc)
    as (values' & accs' & _ & Ha' & _ & Hl).
  exists accs'. split; [|done].
  destruct (for_range _ 0 _ _) as [st3|e st3]; simpl in *; [|done].
  by destruct (set_values_frame st3) as (_ & -> & _).
Qed.
End Invariants.

(** X10.  The parameters keep their number and their shapes: over any run,
    however it ends, the snapshot has as many entries as before and each
    entry its length, since [v -= ...] writes into the array it finds. *)
Theorem snapshot_keeps_shapes {F G : Type} `{Numeric F}
    (envs : list (step_env F G)) (st : trainer F G) (values : list (ndarray F)) :
  var_values st = Some values ->
  exists values',
    var_values (final (run_steps envs st)) = Some values' /\ same_shapes values values'.
Proof.
  revert st values. induction envs as [|env envs IH]; intros st values Hv; simpl.
  - exists values. split; [done|]. apply same_shapes_refl.
  - destruct (run_step_keeps_shapes env st values) as (values1 & Hv1 & Hs1).
    { unfold snapshot_before. by rewrite Hv. }
    destruct (run_step env st) as [st1|e st1]; simpl in *; [|by exists values1].
    destruct (IH st1 values1 Hv1) as (values' & Hv' & Hs').
    exists values'. split; [done|]. by eapply same_shapes_trans.
Qed.

Lemma snapshot_keeps_shapes_witness :
  var_values Ex.st1 = Some Ex.values1 /\
  exists values',
    var_values (final (run_steps [Ex.env 1 true; Ex.env 3 false] Ex.st1)) = Some values' /\
    same_shapes Ex.values1 values'.
Proof.
  split; [reflexivity|].
  apply (snapshot_keeps_shapes [Ex.env 1 true; Ex.env 3 false] Ex.st1 Ex.values1).
  reflexivity.
Defined.

(** X11.  An accumulator in use is never created again nor resized: over
    any run, however it ends, it keeps its number of buffers, also when the
    number of gradients received changes. *)
Theorem accumulator_keeps_buffers {F G : Type} `{Numeric F}
    (envs : list (step_env F G)) (st : trainer F G) (accs : list (ndarray F)) :
  acc_values st = Some accs -> accs <> [] ->
  exists accs',
    acc_values (final (run_steps envs st)) = Some accs' /\ length accs' = length accs.
Proof.
  revert st accs. induction envs as [|env envs IH]; intros st accs Ha Hne; simpl.
  - by exists accs.
  - destruct (run_step_keeps_buffers env st accs Ha Hne) as (accs1 & Ha1 & Hl1).
    destruct (run_step env st) as [st1|e st1]; simpl in *; [|by exists accs1].
    destruct (IH st1 accs1 Ha1) as (accs' & Ha' & Hl').
    { intros ->. destruct accs; simpl in *; [done|lia]. }
    exists accs'. split; [done|]. congruence.
Qed.

Lemma accumulator_keeps_buffers_witness :
  acc_values Ex.st1 = Some Ex.accs1 /\ Ex.accs1 <> [] /\
  exists accs',
    acc_values (final (run_steps [Ex.env 1 true; Ex.env 3 false] Ex.st1)) = Some accs' /\
    length accs' = length Ex.accs1.
Proof.
  assert (Hne : Ex.accs1 <> []).
  { intros Heq. apply (f_equal length) in Heq. vm_compute in Heq. discriminate Heq. }
  split; [reflexivity|]. split; [exact Hne|].
  apply (accumulator_keeps_buffers [Ex.env 1 true; Ex.env 3 false] Ex.st1 Ex.accs1).
  - reflexivity.
  - exact Hne.
Defined.

(** ** Lists of one length *)

(** In a trainer built by [_setup_graph] the gradient list and the snapshot
    pulled from replica 0 come from the same list of pairs: their lengths
    agree by construction. *)
Lemma setup_lengths_agree {F G : Type} `{Numeric F}
    (bg : list (list (G * ndarray F))) (self st : trainer F G) (env : step_env F G)
    (values : list (ndarray F)) :
  setup_graph bg self = Done st -> var_values self = None ->
  snapshot_before st = Some values ->
  length (grad_values env st) = length values.
Proof.
  intros Hsetup Hnone. apply setup_graph_Done in Hsetup as (grads0 & rest & -> & ->).
  unfold snapshot_before, grad_values. simpl. rewrite Hnone. simpl.
  intros [= <-]. by rewrite !length_fmap.
Qed.

Section OneLength.
Context {F G : Type} `{Numeric F}.
Implicit Types st self : trainer F G.
Implicit Types env : step_env F G.

Lemma setup_graph_lengths_agree bg self st :
  setup_graph bg self = Done st -> lengths_agree st.
Proof.
  intros Hsetup. apply setup_graph_Done in Hsetup as (grads0 & rest & -> & ->).
  unfold lengths_agree. simpl. split; [by rewrite !length_fmap|done].
Qed.

(** A completed step keeps the three lengths equal: the accumulator is
    created with one buffer per gradient and assigned by index afterwards,
    and the broadcast replaces variables one for one. *)
Lemma run_step_lengths_agree env st st' :
  lengths_agree st -> run_step env st = Done st' -> lengths_agree st'.
Proof.
  intros [Hvars Haccs] Hrun. apply run_step_with_Done in Hrun
    as (values & accs & values' & accs' & replicas' & log & Hsnap & Hacc & Hlog & Hload
        & -> & Hlv & Hla & Hin & Hout).
  unfold lengths_agree. simpl. split.
  - rewrite Hvars. pose proof (load_all_lengths values' (all_vars st)) as Hl.
    rewrite Hload in Hl. simpl in Hl.
    destruct Hl as [|vars vars' ? ? Hl0 _]; simpl; [done|]. by rewrite Hl0.
  - intros accs0 [= <-] _. rewrite Hla. unfold acc_before in Hacc.
    destruct (acc_uninitialized (acc_values st)) eqn:Hun.
    + injection Hacc as <-. unfold grad_values. by rewrite !length_fmap.
    + apply Haccs; [done|]. by rewrite <- Hacc.
Qed.

(** Between [_setup_graph] and the end of any completed run the gradient
    list, the accumulator and the variables of replica 0 have one length. *)
Lemma run_steps_lengths_agree envs : forall st st',
  lengths_agree st -> run_steps envs st = Done st' -> lengths_agree st'.
Proof.
  induction envs as [|env envs IH]; intros st st' Hl Hrun; simpl in Hrun.
  - by injection Hrun as <-.
  - destruct (run_step env st) as [st1|e st1] eqn:Hstep; simpl in Hrun; [|done].
    eapply IH; [|exact Hrun]. by eapply run_step_lengths_agree.
Qed.
End OneLength.

(** ** Runs that complete *)

Section WellShaped.
Context {F G : Type} `{Numeric F}.
Implicit Types st : trainer F G.
Implicit Types env : step_env F G.
Implicit Types values accs gs : list (ndarray F).

Lemma has_shapes_zeros sh gs : has_shapes sh gs -> has_shapes sh (Np.zeros_like <$> gs).
Proof.
  unfold has_shapes. intros Hs. apply Forall2_fmap_r.
  eapply Forall2_impl; [exact Hs|]. simpl. by intros s g <-.
Qed.

Lemma well_shaped_snapshot sh st :
  well_shaped sh st -> exists values, snapshot_before st = Some values /\ has_shapes sh values.
Proof.
  intros (Hne & Hrows & _ & Hv & _). unfold snapshot_before.
  destruct (var_values st) as [values|]; [by exists values; split; [|apply Hv]|].
  destruct (all_vars st) as [|vars0 rest]; [done|].
  apply Forall_cons in Hrows as [Hrow _]. by exists vars0.
Qed.

Lemma well_shaped_acc sh env st :
  well_shaped sh st -> has_shapes sh (grad_values env st) ->
  exists accs, acc_before env st = Some accs /\ has_shapes sh accs.
Proof.
  intros (_ & _ & _ & _ & Ha) Hg. unfold acc_before.
  destruct (acc_values st) as [[|acc accs]|]; simpl.
  - eexists. split; [done|]. by apply has_shapes_zeros.
  - eexists. split; [done|]. by apply Ha.
  - eexists. split; [done|]. by apply has_shapes_zeros.
Qed.

(** A well-shaped trainer that receives well-shaped gradients, and whose
    sink accepts, completes the step and stays well shaped. *)
Lemma well_shaped_step sh env st :
  well_shaped sh st -> sink_ok env = true -> has_shapes sh (grad_values env st) ->
  exists st', run_step env st = Done st' /\ well_shaped sh st' /\
              all_grads st' = all_grads st.
Proof.
  intros Hws Hsink Hg.
  destruct (well_shaped_snapshot sh st Hws) as (values & Hsnap & Hvs).
  destruct (well_shaped_acc sh env st Hws Hg) as (accs & Hacc & Has).
  destruct Hws as (Hne & Hrows & Hgl & _ & _).
  unfold has_shapes in *.
  assert (Hlog : is_Some (log_after env st)).
  { unfold log_after. rewrite Hsink. by destruct (_ =? 0)%Z. }
  destruct (run_step_completes lr momentum env st values accs Hsnap Hacc Hlog) as [st' Hrun].
  { intros j v Hv. destruct (Forall2_lookup_r _ _ _ _ _ Hvs Hv) as (n & Hn & Hlv).
    destruct (Forall2_lookup_l _ _ _ _ _ Hg Hn) as (g & Hgj & Hlg).
    destruct (Forall2_lookup_l _ _ _ _ _ Has Hn) as (acc & Haj & Hla).
    exists g, acc. split_and!; try done; congruence. }
  { eapply Forall_impl; [exact Hrows|]. simpl. intros vars Hvars j v var Hv Hvar.
    destruct (Forall2_lookup_r _ _ _ _ _ Hvs Hv) as (n & Hn & Hlv).
    pose proof (Forall2_lookup_lr _ _ _ _ _ _ Hvars Hn Hvar). simpl in *. congruence. }
  exists st'. split; [done|].
  apply run_step_with_Done in Hrun
    as (values0 & accs0 & values' & accs' & replicas' & log & Hsnap0 & Hacc0 & _ & Hload
        & -> & Hlv & Hla & Hin & Hout).
  rewrite Hsnap in Hsnap0. injection Hsnap0 as <-.
  rewrite Hacc in Hacc0. injection Hacc0 as <-.
  pose proof (Forall2_length _ _ _ Hvs) as Hlen.
  pose proof (Forall2_length _ _ _ Has) as Hlena.
  assert (Hvs' : Forall2 (fun s x => shape x = s) sh values').
  { apply Forall2_same_length_lookup. split; [lia|]. intros j n v' Hn Hv'.
    destruct (Hin j) as (v & g & acc & acc1 & v1 & Hv & _ & _ & Hrule & _ & Hv1).
    { apply lookup_lt_Some in Hv'. lia. }
    rewrite Hv' in Hv1. injection Hv1 as <-.
    apply momentum_rule_shape in Hrule as [Hs _]. rewrite Hs.
    by apply (Forall2_lookup_lr _ _ _ _ _ _ Hvs Hn Hv). }
  assert (Has' : Forall2 (fun s x => shape x = s) sh accs').
  { apply Forall2_same_length_lookup. split; [lia|]. intros j n acc' Hn Hacc'.
    destruct (Hin j) as (v & g & acc & acc1 & v1 & _ & Hgj & Haj & Hrule & Ha1 & _).
    { apply lookup_lt_Some in Hn. lia. }
    rewrite Hacc' in Ha1. injection Ha1 as <-.
    apply momentum_rule_holds in Hrule as (_ & Hadd & _).
    pose proof (Forall2_lookup_lr _ _ _ _ _ _ Hg Hn Hgj) as Hlg.
    pose proof (Forall2_lookup_lr _ _ _ _ _ _ Has Hn Haj) as Hla0. simpl in *.
    destruct Hadd as [Hs _]; congruence. }
  apply load_all_full in Hload.
  2:{ eapply Forall_impl; [exact Hrows|]. simpl. intros vars Hvars.
      apply Forall2_length in Hvars. lia. }
  subst replicas'. unfold well_shaped, has_shapes. simpl. split_and!; try done.
  - destruct (all_vars st); [done|]. done.
  - by apply Forall_replicate.
  - by intros ? [= <-].
  - by intros ? [= <-].
Qed.

Lemma well_shaped_run sh envs : forall st,
  well_shaped sh st ->
  Forall (fun env => sink_ok env = true /\ has_shapes sh (grad_values env st)) envs ->
  exists st', run_steps envs st = Done st' /\ well_shaped sh st' /\
              all_grads st' = all_grads st.
Proof.
  induction envs as [|env envs IH]; intros st Hws Henvs; simpl.
  - by exists st.
  - apply Forall_cons in Henvs as [[Hsink Hg] Henvs].
    destruct (well_shaped_step sh env st Hws Hsink Hg) as (st1 & -> & Hws1 & Hgrads1).
    simpl. destruct (IH st1 Hws1) as (st' & Hrun & Hws' & Hgrads').
    { eapply Forall_impl; [exact Henvs|]. simpl. unfold grad_values. by rewrite Hgrads1. }
    exists st'. split_and!; try done. congruence.
Qed.
End WellShaped.

(** X13.  A trainer set up on replicas whose variables have the same
    shapes completes every step of a run in which each gradient has the
    shape of its parameter and the sink accepts the scalars; shapes are then
    as they were. *)
Theorem well_shaped_run_completes {F G : Type} `{Numeric F}
    (sh : list (list nat)) (bg : list (list (G * ndarray F))) (self st : trainer F G)
    (envs : list (step_env F G)) :
  var_values self = None ->
  Forall (fun grads : list (G * ndarray F) => has_shapes sh (snd <$> grads)) bg ->
  setup_graph bg self = Done st ->
  Forall (fun env => sink_ok env = true /\ has_shapes sh (grad_values env st)) envs ->
  exists st', run_steps envs st = Done st' /\ well_shaped sh st'.
Proof.
  intros Hnone Hbg Hsetup Henvs.
  assert (Hws : well_shaped sh st).
  { apply setup_graph_Done in Hsetup as (grads0 & rest & -> & ->).
    apply Forall_cons in Hbg as [Hrow Hrest].
    unfold well_shaped. simpl. split_and!; try done.
    - constructor; [done|]. by apply Forall_fmap.
    - apply Forall2_length in Hrow. rewrite length_fmap in Hrow. rewrite length_fmap. lia.
    - by rewrite Hnone. }
  destruct (well_shaped_run sh envs st Hws Henvs) as (st' & Hrun & Hws' & _).
  by exists st'.
Qed.

Lemma well_shaped_run_completes_witness :
  setup_graph Ex.builder_rank2 fresh = Done Ex.st0_rank2 /\
  exists st', run_steps [Ex.env_rank2 2; Ex.env_rank2 1] Ex.st0_rank2 = Done st' /\
              well_shaped [[2; 2]; [2]] st'.
Proof.
  split; [reflexivity|].
  apply (well_shaped_run_completes [[2; 2]; [2]] Ex.builder_rank2 fresh Ex.st0_rank2
           [Ex.env_rank2 2; Ex.env_rank2 1]).
  - reflexivity.
  - repeat constructor.
  - reflexivity.
  - repeat constructor.
Defined.

(** A value of the same four elements and another shape, [(4,)] for the
    weight of shape [(2, 2)], is not loaded: the broadcast raises
    [ValueError]. *)
Example reshaped_value_is_refused :
  exists st', set_values (set_var_values
                (Some [NdArray [4] [Ex.q 1; Ex.q 2; Ex.q 3; Ex.q 4]; Ex.vec [Ex.q 0; Ex.q 0]])
                Ex.st0_rank2) = Raised ValueError st'.
Proof. eexists. reflexivity. Qed.

(** ** Zero gradients *)

Section ZeroGradient.
Context {F G : Type} `{Numeric F}.
Implicit Types st : trainer F G.
Implicit Types env : step_env F G.
Implicit Types values accs gs : list (ndarray F).

(** The laws of exact arithmetic used below. *)
Hypothesis zero_mul : forall m : F, fmul fzero m = fzero.
Hypothesis mul_zero : forall c : F, fmul c fzero = fzero.
Hypothesis zero_add_zero : fadd fzero fzero = fzero.
Hypothesis sub_zero : forall w : F, fsub w fzero = w.

Lemma write_sub_zero (d xs : list F) :
  Forall (fun x => x = fzero) xs -> Np.write_op fsub d xs = d.
Proof using sub_zero.
  intros Hxs. revert d. induction Hxs as [|x xs -> _ IH]; intros [|w d]; simpl; try done.
  by rewrite sub_zero, IH.
Qed.

Lemma add_all_zero (m : F) (a g a' : ndarray F) :
  all_zero a -> all_zero g -> Np.add (Np.mul_scalar a m) g = Some a' -> all_zero a'.
Proof using zero_mul zero_add_zero.
  unfold all_zero. intros Ha Hg.
  assert (Ham : Forall (fun x => x = fzero) (data (Np.mul_scalar a m))).
  { unfold Np.mul_scalar. simpl. apply Forall_fmap.
    eapply Forall_impl; [exact Ha|]. simpl. intros x ->. apply zero_mul. }
  assert (Hzip : forall xs ys, Forall (fun x => x = fzero) xs -> Forall (fun x => x = fzero) ys ->
                               Forall (fun x => x = fzero) (Np.zip_op fadd xs ys)).
  { intros xs ys. apply zip_op_Forall. intros x y -> ->. apply zero_add_zero. }
  unfold Np.add. case_decide.
  - intros [= <-]. simpl. by apply Hzip.
  - destruct (Np.broadcast_shapes _ _) as [s|]; simpl; [|done].
    intros [= <-]. simpl. apply Hzip; by apply broadcast_to_Forall.
Qed.

Lemma isub_all_zero (c : F) (v a v' : ndarray F) :
  all_zero a -> Np.isub v (Np.scalar_mul c a) = Some v' -> v' = v.
Proof using mul_zero sub_zero.
  unfold all_zero. intros Ha.
  assert (Hca : Forall (fun x => x = fzero) (data (Np.scalar_mul c a))).
  { unfold Np.scalar_mul. simpl. apply Forall_fmap.
    eapply Forall_impl; [exact Ha|]. simpl. intros x ->. apply mul_zero. }
  unfold Np.isub. case_decide.
  - intros [= <-]. rewrite write_sub_zero by done. by destruct v.
  - destruct (Np.broadcast_shapes _ _) as [s|]; [|done]. case_decide; [|done].
    intros [= <-]. rewrite write_sub_zero by (by apply broadcast_to_Forall). by destruct v.
Qed.

Lemma zero_gradient_step env st st' accs :
  acc_before env st = Some accs -> Forall all_zero accs ->
  Forall all_zero (grad_values env st) ->
  run_step env st = Done st' ->
  var_values st' = snapshot_before st /\
  exists accs', acc_values st' = Some accs' /\ Forall all_zero accs'.
Proof using zero_mul mul_zero zero_add_zero sub_zero.
  intros Hacc Hzero Hg Hrun. apply run_step_with_Done in Hrun
    as (values & accs0 & values' & accs' & replicas' & log & Hsnap & Hacc0 & _ & _
        & -> & Hlv & Hla & Hin & Hout).
  rewrite Hacc in Hacc0. injection Hacc0 as <-. simpl.
  assert (Hstep : forall j, j < length values ->
            values' !! j = values !! j /\
            exists acc', accs' !! j = Some acc' /\ all_zero acc').
  { intros j Hj.
    destruct (Hin j Hj) as (v & g & acc & acc' & v' & Hv & Hgj & Haj & Hrule & Ha' & Hv').
    apply momentum_rule_holds in Hrule as (Hadd & _ & Hkeep & Hsub).
    assert (Hz : all_zero acc').
    { eapply add_all_zero; [| |exact Hadd].
      - eapply Forall_lookup_1; [exact Hzero|exact Haj].
      - eapply Forall_lookup_1; [exact Hg|exact Hgj]. }
    assert (Hsame : v' = v).
    { destruct (Np.is_scalar v); [by apply Hkeep|].
      destruct Hsub as [Hsub _]; [done|]. by apply (isub_all_zero _ _ _ _ Hz) in Hsub. }
    subst v'. split; [congruence|]. by exists acc'. }
  split.
  - rewrite Hsnap. f_equal. apply list_eq. intros j.
    destruct (decide (j < length values)) as [Hj|Hj]; [by apply Hstep|].
    rewrite !lookup_ge_None_2 by lia. done.
  - exists accs'. split; [done|]. apply Forall_lookup_2. intros j acc' Ha'.
    destruct (decide (j < length values)) as [Hj|Hj].
    + destruct (Hstep j Hj) as (_ & acc1 & Ha1 & Hz). congruence.
    + rewrite Hout in Ha' by lia. eapply Forall_lookup_1; [exact Hzero|exact Ha'].
Qed.

Lemma acc_before_all_zero env st :
  (forall accs, acc_values st = Some accs -> Forall all_zero accs) ->
  exists accs, acc_before env st = Some accs /\ Forall all_zero accs.
Proof.
  intros Ha. unfold acc_before.
  assert (Hz : Forall all_zero (Np.zeros_like <$> grad_values env st)).
  { apply Forall_fmap, Forall_true. intros g. unfold all_zero, Np.zeros_like. simpl.
    by apply Forall_replicate. }
  destruct (acc_values st) as [[|acc accs]|]; simpl; eexists; split; try done.
  by apply Ha.
Qed.

Lemma zero_gradient_run envs : forall st st',
  (forall accs, acc_values st = Some accs -> Forall all_zero accs) ->
  Forall (fun env => Forall all_zero (grad_values env st)) envs ->
  envs <> [] ->
  run_steps envs st = Done st' ->
  var_values st' = snapshot_before st.
Proof using zero_mul mul_zero zero_add_zero sub_zero.
  induction envs as [|env envs IH]; intros st st' Ha Hg Hne Hrun; [done|].
  simpl in Hrun. apply Forall_cons in Hg as [Hg Hgs].
  destruct (run_step env st) as [st1|e st1] eqn:Hstep; simpl in Hrun; [|done].
  destruct (acc_before_all_zero env st Ha) as (accs & Hacc & Hzero).
  pose proof (run_step_all_grads _ _ _ Hstep) as Hgrads.
  destruct (zero_gradient_step env st st1 accs Hacc Hzero Hg Hstep)
    as (Hv1 & accs1 & Ha1 & Hz1).
  destruct envs as [|env2 envs].
  - simpl in Hrun. by injection Hrun as <-.
  - rewrite <- Hv1. assert (Hsnap1 : snapshot_before st1 = var_values st1).
    { unfold snapshot_before. rewrite Hv1.
      apply run_step_with_Done in Hstep as (? & ? & ? & ? & ? & ? & -> & _). done. }
    rewrite <- Hsnap1. apply IH; try done.
    + intros accs0. rewrite Ha1. by intros [= <-].
    + eapply Forall_impl; [exact Hgs|]. simpl. unfold grad_values. by rewrite Hgrads.
Qed.
End ZeroGradient.

(** X14.  In arithmetic where [0 * m = 0], [c * 0 = 0], [0 + 0 = 0] and
    [w - 0 = w]: a run that starts without accumulator, or with one that
    holds zeros only, and receives zero gradients only, ends with the
    parameters it started from. *)
Theorem zero_gradients_keep_parameters {F G : Type} `{Numeric F}
    (envs : list (step_env F G)) (st st' : trainer F G) :
  (forall m : F, fmul fzero m = fzero) -> (forall c : F, fmul c fzero = fzero) ->
  fadd fzero fzero = fzero -> (forall w : F, fsub w fzero = w) ->
  (forall accs, acc_values st = Some accs -> Forall all_zero accs) ->
  Forall (fun env => Forall all_zero (grad_values env st)) envs ->
  envs <> [] ->
  run_steps envs st = Done st' ->
  var_values st' = snapshot_before st.
Proof.
  intros H1 H2 H3 H4. by apply zero_gradient_run.
Qed.

Lemma zero_gradients_keep_parameters_witness :
  run_steps [Ex.zero_env; Ex.zero_env] Ex.st0 = Done Ex.st_rest /\
  var_values Ex.st_rest = snapshot_before Ex.st0.
Proof.
  split; [vm_compute; reflexivity|].
  apply (zero_gradients_keep_parameters [Ex.zero_env; Ex.zero_env] Ex.st0 Ex.st_rest).
  - exact Qcmult_0_l.
  - exact Qcmult_0_r.
  - exact (Qcplus_0_l (Q2Qc 0)).
  - intros w. unfold fsub, fzero. simpl. unfold Qcminus. rewrite Qcplus_0_r. reflexivity.
  - intros accs Hnone. discriminate Hnone.
  - repeat constructor.
  - discriminate.
  - vm_compute; reflexivity.
Defined.

(** ** A loop that raises *)

Section LoopRaises.
Context {F G : Type} `{Numeric F}.
Implicit Types st : trainer F G.
Implicit Types env : step_env F G.
Implicit Types values accs gs : list (ndarray F).


End LoopRaises.


